(** * Transactional stock ledger of the Rapitienda inventory application

    A shallow embedding of [firebase_utils.py]: the two transactional
    operations ([_complete_order_atomic], [_process_direct_sale_atomic]) with
    their callers in [FirebaseManager], the retry decorator
    [firestore_retry], [save_inventory_item] and the paged deletion of an
    item's history.

    The document store is modelled as three finite maps (inventory
    documents, their [history] sub-collections, order documents).  A
    transaction reads from the store it was opened on and stages writes that
    are applied, in order, when it commits. *)

From Stdlib Require Import Ascii.
From stdpp Require Import gmap strings list pretty sorting stringmap.

Open Scope Z_scope.

(** ** Python values *)

(** Exceptions that the modelled code raises or meets. [NotFound] is what the
    store answers to an [update] of a document that does not exist;
    [RecursionError] is what the interpreter raises at a call that would
    nest deeper than its recursion limit allows. *)
Inductive exn :=
  | ValueError (msg : string)
  | RuntimeError (msg : string)
  | NotFound (msg : string)
  | RecursionError (msg : string).

(** [str(e)] *)
Definition str_exn (e : exn) : string :=
  match e with
  | ValueError msg => msg
  | RuntimeError msg => msg
  | NotFound msg => msg
  | RecursionError msg => msg
  end.

Definition recursion_error : exn :=
  RecursionError "maximum recursion depth exceeded".

Inductive result (A : Type) :=
  | Ok (a : A)
  | Raise (e : exn).
Arguments Ok {A} a.
Arguments Raise {A} e.

(** Sequencing: an exception ends the computation ([x ← r; k]). *)
#[global] Instance result_ret : MRet result := λ A a, Ok a.
#[global] Instance result_bind : MBind result := λ A B k r,
  match r with
  | Ok a => k a
  | Raise e => Raise e
  end.

(** [d.get(key, dflt)] on a field that may be absent. *)
Definition get {A} (field : option A) (dflt : A) : A :=
  match field with
  | Some a => a
  | None => dflt
  end.

(** How an f-string renders [d.get('name')]: the text, or [None]. *)
Definition fmt_name (name : option string) : string :=
  match name with
  | Some s => s
  | None => "None"
  end.

(** How an f-string renders an integer. *)
Definition fmt_int (z : Z) : string := pretty z.

Definition fmt_opt_int (z : option Z) : string :=
  match z with
  | Some z => fmt_int z
  | None => "None"
  end.

(** Truth value of [d.get('min_stock_alert')]: [None] and [0] are false. *)
Definition truthy (z : option Z) : bool :=
  match z with
  | Some z => negb (z =? 0)
  | None => false
  end.

(** A reading of [datetime.now(timezone.utc)]. *)
Definition time := Z.

(** Prices are Python numbers; the code only adds them, multiplies them by a
    quantity and prints them, so these three operations are all that is
    asked of the type that stands for them. *)
Class Money (price : Type) := {
  zero_price : price;                       (* 0.0 *)
  add_price : price → price → price;        (* a + b *)
  mul_price : price → Z → price;            (* p * quantity *)
  fmt_price : price → string                (* f"{p:,.2f}" *)
}.

(** ** Documents *)

(** An [inventory/{id}] document. Every field may be absent. *)
Record item_data (price : Type) := mk_item {
  name : option string;
  quantity : option Z;
  sale_price : option price;
  purchase_price : option price;
  min_stock_alert : option Z;
  updated_at : option string
}.
Arguments mk_item {price}.
Arguments name {price}.
Arguments quantity {price}.
Arguments sale_price {price}.
Arguments purchase_price {price}.
Arguments min_stock_alert {price}.
Arguments updated_at {price}.

(** An [inventory/{id}/history/{entry}] document. [quantity_change] is
    optional because [save_inventory_item] stores [data.get('quantity')]. *)
Record history_data := mk_history {
  h_timestamp : time;
  h_type : string;
  quantity_change : option Z;
  details : string
}.

(** One entry of an order's [ingredients], which is also the shape of an
    entry of [items_sold]. [id] and [quantity] are read with [x['id']] and
    [x['quantity']] and so are always there; the rest is read with [get]. *)
Record line_item (price : Type) := mk_line {
  li_id : string;
  li_name : option string;
  li_quantity : Z;
  li_sale_price : option price;
  li_purchase_price : option price
}.
Arguments mk_line {price}.
Arguments li_id {price}.
Arguments li_name {price}.
Arguments li_quantity {price}.
Arguments li_sale_price {price}.
Arguments li_purchase_price {price}.

(** An [orders/{id}] document. *)
Record order_data (price : Type) := mk_order {
  title : option string;
  o_price : option price;
  ingredients : option (list (line_item price));
  status : option string;
  timestamp : option time;
  completed_at : option time;
  payment_method : option string;
  customer_name : option string;
  is_direct_sale : option bool
}.
Arguments mk_order {price}.
Arguments title {price}.
Arguments o_price {price}.
Arguments ingredients {price}.
Arguments status {price}.
Arguments timestamp {price}.
Arguments completed_at {price}.
Arguments payment_method {price}.
Arguments customer_name {price}.
Arguments is_direct_sale {price}.

(** The [payment_data] of a direct sale. *)
Record payment := mk_payment {
  method : option string;
  customer : option string
}.

(** ** The document store *)

(** A [history] sub-collection: its documents with their ids, in the order
    in which a query streams them. *)
Abbreviation collection := (list (nat * history_data)).

Record store (price : Type) := mk_store {
  inventory : gmap string (item_data price);
  history : gmap string collection;
  orders : gmap string (order_data price)
}.
Arguments mk_store {price}.
Arguments inventory {price}.
Arguments history {price}.
Arguments orders {price}.

(** The history sub-collection of an item (empty when it has no document). *)
Definition history_of {price} (db : store price) (item : string) : collection :=
  default [] (history db !! item).

(** The id that [collection.document()] / [collection.add] gives a new
    document: one that no document of the collection has. *)
Definition fresh_id (coll : collection) : nat :=
  S (foldr Nat.max 0%nat coll.*1).

(** A write staged in a transaction. *)
Inductive write (price : Type) :=
  | UpdateQuantity (item : string) (q : Z)
      (* transaction.update(item_ref, {'quantity': q}) *)
  | SetHistory (item : string) (h : history_data)
      (* transaction.set(item_ref.collection('history').document(), h) *)
  | UpdateCompleted (order : string) (at_ : time)
      (* transaction.update(order_ref, {'status': 'completed', 'completed_at': at_}) *)
  | SetOrder (order : string) (o : order_data price).
      (* transaction.set(order_ref, o) *)
Arguments UpdateQuantity {price}.
Arguments SetHistory {price}.
Arguments UpdateCompleted {price}.
Arguments SetOrder {price}.

Definition set_quantity {price} (q : Z) (d : item_data price) : item_data price :=
  mk_item (name d) (Some q) (sale_price d) (purchase_price d)
          (min_stock_alert d) (updated_at d).

Definition set_completed {price} (t : time) (o : order_data price) : order_data price :=
  mk_order (title o) (o_price o) (ingredients o) (Some "completed")
           (timestamp o) (Some t) (payment_method o) (customer_name o)
           (is_direct_sale o).

Definition add_history {price} (item : string) (h : history_data)
    (db : store price) : store price :=
  let coll := history_of db item in
  mk_store (inventory db)
           (<[item := coll ++ [(fresh_id coll, h)]]> (history db))
           (orders db).

(** The effect of one write. [update] fails on a document that does not
    exist; [set] creates or replaces. *)
Definition apply_write {price} (w : write price) (db : store price)
    : result (store price) :=
  match w with
  | UpdateQuantity item q =>
      match inventory db !! item with
      | Some d =>
          Ok (mk_store (<[item := set_quantity q d]> (inventory db))
                       (history db) (orders db))
      | None => Raise (NotFound ("No document to update: inventory/" +:+ item))
      end
  | SetHistory item h => Ok (add_history item h db)
  | UpdateCompleted order t =>
      match orders db !! order with
      | Some o =>
          Ok (mk_store (inventory db) (history db)
                       (<[order := set_completed t o]> (orders db)))
      | None => Raise (NotFound ("No document to update: orders/" +:+ order))
      end
  | SetOrder order o =>
      Ok (mk_store (inventory db) (history db) (<[order := o]> (orders db)))
  end.

(** Commit: the staged writes take effect in the order they were staged. *)
Fixpoint commit {price} (ws : list (write price)) (db : store price)
    : result (store price) :=
  match ws with
  | [] => Ok db
  | w :: ws => db' ← apply_write w db; commit ws db'
  end.

(** [@firestore.transactional]: run the body on the store as it is, commit
    what it staged; when the body or the commit raises, no write is kept and
    the exception goes to the caller. *)
Definition transactional {price A}
    (body : store price → result (A * list (write price)))
    (db : store price) : store price * result A :=
  match body db with
  | Raise e => (db, Raise e)
  | Ok (ret, ws) =>
      match commit ws db with
      | Ok db' => (db', Ok ret)
      | Raise e => (db, Raise e)
      end
  end.

(** ** The transactional ledger *)

(** An entry of [items_to_update]. [line_quantity] is the key
    ['ing_quantity'] of [_complete_order_atomic] and ['sold_quantity'] of
    [_process_direct_sale_atomic]. *)
Record item_update (price : Type) := mk_update {
  ref : string;
  new_quantity : Z;
  upd_item_data : item_data price;
  line_quantity : Z
}.
Arguments mk_update {price}.
Arguments ref {price}.
Arguments new_quantity {price}.
Arguments upd_item_data {price}.
Arguments line_quantity {price}.

Section Ledger.
Context {price : Type} `{Money price}.
Implicit Types (db : store price) (item_update : item_update price).

(** The low-stock test both operations make:
    [min_stock_alert and 0 < new_quantity <= min_stock_alert]. *)
Definition low_stock (min_stock_alert : option Z) (new_quantity : Z) : bool :=
  truthy min_stock_alert
  && match min_stock_alert with
     | Some m => (0 <? new_quantity) && (new_quantity <=? m)
     | None => false
     end.

(** The second loop of both operations, [for item_update in items_to_update],
    which differ in the texts they write only: [h_type] and [details] of the
    history entry, and the alert message. The loop carries the staged
    writes, the alerts and the number of clock readings made so far. *)
Fixpoint stage_updates (now : nat → time) (type_ details_ : string)
    (alert : item_update price → string)
    (items_to_update : list (item_update price))
    (txn : list (write price)) (low_stock_alerts : list string) (tick : nat)
    : list (write price) * list string * nat :=
  match items_to_update with
  | [] => (txn, low_stock_alerts, tick)
  | item_update :: rest =>
      let txn := txn ++ [UpdateQuantity (ref item_update) (new_quantity item_update)] in
      let history_data :=
        mk_history (now tick) type_ (Some (- line_quantity item_update)) details_ in
      let txn := txn ++ [SetHistory (ref item_update) history_data] in
      let low_stock_alerts :=
        if low_stock (min_stock_alert (upd_item_data item_update))
                     (new_quantity item_update)
        then low_stock_alerts ++ [alert item_update]
        else low_stock_alerts in
      stage_updates now type_ details_ alert rest txn low_stock_alerts (S tick)
  end.

(** *** [_complete_order_atomic] *)

(** The first loop, [for ing in order_data.get('ingredients', [])]. *)
Fixpoint check_ingredients (db : store price) (ings : list (line_item price))
    (items_to_update : list (item_update price))
    : result (list (item_update price)) :=
  match ings with
  | [] => Ok items_to_update
  | ing :: rest =>
      match inventory db !! li_id ing with
      | None =>
          Raise (ValueError ("Producto '" +:+ fmt_name (li_name ing)
                             +:+ "' ya no existe en inventario."))
      | Some item_data =>
          let current_quantity := get (quantity item_data) 0 in
          if current_quantity <? li_quantity ing then
            Raise (ValueError ("Stock insuficiente para '" +:+ fmt_name (li_name ing)
                               +:+ "'. Disponible: " +:+ fmt_int current_quantity))
          else
            let new_quantity := current_quantity - li_quantity ing in
            check_ingredients db rest
              (items_to_update
                 ++ [mk_update (li_id ing) new_quantity item_data (li_quantity ing)])
      end
  end.

Definition completed_alert (u : item_update price) : string :=
  "'" +:+ fmt_name (name (upd_item_data u))
  +:+ "' ha alcanzado el umbral de stock mínimo ("
  +:+ fmt_int (new_quantity u) +:+ "/"
  +:+ fmt_opt_int (min_stock_alert (upd_item_data u)) +:+ ").".

Definition _complete_order_atomic (now : nat → time) (order_id : string)
    (db : store price)
    : result ((bool * string * list string) * list (write price)) :=
  match orders db !! order_id with
  | None => Raise (ValueError "La venta/pedido no existe.")
  | Some order_data =>
      items_to_update ← check_ingredients db (get (ingredients order_data) []) [];
      let '(txn, low_stock_alerts, tick) :=
        stage_updates now "Venta Completada" ("Venta ID: " +:+ order_id)
                      completed_alert items_to_update [] [] 0%nat in
      let txn := txn ++ [UpdateCompleted order_id (now tick)] in
      Ok ((true,
           "Venta '" +:+ fmt_name (title order_data) +:+ "' finalizada correctamente.",
           low_stock_alerts), txn)
  end.

(** [FirebaseManager.complete_order]: the store after the call and the
    triple [(ok, message, alerts)] it returns. *)
Definition complete_order (now : nat → time) (order_id : string)
    (db : store price) : store price * (bool * string * list string) :=
  match transactional (_complete_order_atomic now order_id) db with
  | (db', Ok ret) => (db', ret)
  | (db', Raise e) => (db', (false, "Error transacción: " +:+ str_exn e, []))
  end.

(** *** [_process_direct_sale_atomic] *)

(** [s.split('-')[-1]]: what follows the last hyphen (all of [s] when it
    has none). [seg] is the segment read so far. *)
Fixpoint last_segment (s seg : string) : string :=
  match s with
  | EmptyString => seg
  | String c s' =>
      if Ascii.eqb c "-"%char then last_segment s' ""
      else last_segment s' (seg +:+ String c "")
  end.

(** The first loop, [for sold_item in items_sold], with the three values it
    builds: [items_to_update], [enriched_ingredients] and [total_price]. *)
Fixpoint check_sold_items (db : store price) (items_sold : list (line_item price))
    (items_to_update : list (item_update price))
    (enriched_ingredients : list (line_item price)) (total_price : price)
    : result (list (item_update price) * list (line_item price) * price) :=
  match items_sold with
  | [] => Ok (items_to_update, enriched_ingredients, total_price)
  | sold_item :: rest =>
      match inventory db !! li_id sold_item with
      | None =>
          Raise (ValueError ("Producto '" +:+ fmt_name (li_name sold_item)
                             +:+ "' no encontrado en BD."))
      | Some item_data =>
          let current_quantity := get (quantity item_data) 0 in
          if current_quantity <? li_quantity sold_item then
            Raise (ValueError ("Stock insuficiente para '"
                               +:+ fmt_name (li_name sold_item) +:+ "'."))
          else
            let new_quantity := current_quantity - li_quantity sold_item in
            let sale_price_ := get (sale_price item_data) zero_price in
            let purchase_price_ := get (purchase_price item_data) zero_price in
            let line_total := mul_price sale_price_ (li_quantity sold_item) in
            let total_price := add_price total_price line_total in
            check_sold_items db rest
              (items_to_update
                 ++ [mk_update (li_id sold_item) new_quantity item_data
                               (li_quantity sold_item)])
              (enriched_ingredients
                 ++ [mk_line (li_id sold_item) (name item_data)
                             (li_quantity sold_item)
                             (Some sale_price_) (Some purchase_price_)])
              total_price
      end
  end.

Definition direct_alert (u : item_update price) : string :=
  "'" +:+ fmt_name (name (upd_item_data u)) +:+ "' bajo stock ("
  +:+ fmt_int (new_quantity u) +:+ "/"
  +:+ fmt_opt_int (min_stock_alert (upd_item_data u)) +:+ ").".

Definition _process_direct_sale_atomic (now : nat → time)
    (items_sold : list (line_item price)) (sale_id : string)
    (payment_data : payment) (db : store price)
    : result ((bool * string * list string) * list (write price)) :=
  '(items_to_update, enriched_ingredients, total_price) ←
     check_sold_items db items_sold [] [] zero_price;
  let '(txn, low_stock_alerts, tick) :=
    stage_updates now "Venta Directa" ("ID Venta: " +:+ sale_id)
                  direct_alert items_to_update [] [] 0%nat in
  let order_data :=
    mk_order (Some ("Venta Directa " +:+ last_segment sale_id ""))
             (Some total_price)
             (Some enriched_ingredients)
             (Some "completed")
             (Some (now tick))
             (Some (now (S tick)))
             (Some (get (method payment_data) "efectivo"))
             (Some (get (customer payment_data) "Cliente General"))
             (Some true) in
  let txn := txn ++ [SetOrder sale_id order_data] in
  Ok ((true, "Venta registrada. Total: $" +:+ fmt_price total_price,
       low_stock_alerts), txn).

(** [FirebaseManager.process_direct_sale]; [payment_data] is [None] when the
    caller gives none. *)
Definition process_direct_sale (now : nat → time)
    (items_sold : list (line_item price)) (sale_id : string)
    (payment_data : option payment) (db : store price)
    : store price * (bool * string * list string) :=
  let payment_data :=
    match payment_data with
    | None => mk_payment (Some "efectivo") (Some "Cliente General")
    | Some p => p
    end in
  match transactional
          (_process_direct_sale_atomic now items_sold sale_id payment_data) db with
  | (db', Ok ret) => (db', ret)
  | (db', Raise e) => (db', (false, "Error al procesar venta: " +:+ str_exn e, []))
  end.

End Ledger.

(** ** The retry decorator *)

(** What [firestore_retry] does besides calling the wrapped function. *)
Inductive event :=
  | LogWarning (attempt : nat) (e : exn)   (* logger.warning(f"Intento {attempt + 1} ...") *)
  | Sleep (delay : Z)                      (* time.sleep(delay) *)
  | LogError.                              (* logger.error("Fallaron todos ...") *)

(** A bare [raise] re-raises the exception being handled where the wrapper
    was called, [active]; outside any handler there is none and Python
    raises a [RuntimeError]. The exception caught inside the loop is not
    active any more once its [except] block is left. *)
Definition bare_raise (active : option exn) : exn :=
  match active with
  | Some e => e
  | None => RuntimeError "No active exception to reraise"
  end.

Section Retry.
Context {W A : Type}.

(** The wrapped function with its arguments: it acts on a world [W] and
    returns a value or raises. *)
Variable func : W → W * result A.

(** [for attempt in range(max_retries)], with [remaining] iterations to go. *)
Fixpoint retry_loop (remaining attempt : nat) (delay : Z) (w : W)
    (trace : list event) : W * list event * option A :=
  match remaining with
  | O => (w, trace, None)
  | S remaining =>
      match func w with
      | (w, Ok a) => (w, trace, Some a)
      | (w, Raise e) =>
          let trace := trace ++ [LogWarning (attempt + 1) e; Sleep delay] in
          let delay := delay * 2 in
          retry_loop remaining (S attempt) delay w trace
      end
  end.

(** [wrapper]: the world after the call, what was logged and slept, and the
    value returned or the exception raised. *)
Definition firestore_retry (active : option exn) (w : W)
    : W * list event * result A :=
  let max_retries := 3%nat in
  let delay := 1 in
  match retry_loop max_retries 0 delay w [] with
  | (w, trace, Some a) => (w, trace, Ok a)
  | (w, trace, None) => (w, trace ++ [LogError], Raise (bare_raise active))
  end.

End Retry.

(** ** Saving and deleting inventory items *)

Section Repository.
Context {price : Type}.

(** [doc_ref.set(data, merge=True)]: the fields of [data] are written, the
    other fields of the document stay; a document that does not exist is
    created. *)
Definition merge_fields (data old : item_data price) : item_data price :=
  mk_item (name data ∪ name old)
          (quantity data ∪ quantity old)
          (sale_price data ∪ sale_price old)
          (purchase_price data ∪ purchase_price old)
          (min_stock_alert data ∪ min_stock_alert old)
          (updated_at data ∪ updated_at old).

Definition set_merge (doc : string) (data : item_data price)
    (db : store price) : store price :=
  let new :=
    match inventory db !! doc with
    | Some old => merge_fields data old
    | None => data
    end in
  mk_store (<[doc := new]> (inventory db)) (history db) (orders db).

(** [details or dflt]: [None] and the empty text are false. *)
Definition details_or (details_ : option string) (dflt : string) : string :=
  match details_ with
  | Some EmptyString | None => dflt
  | Some s => s
  end.

(** The body of [save_inventory_item], before decoration. *)
Definition save_inventory_item_body (now : nat → time)
    (data : item_data price) (custom_id : string) (is_new : bool)
    (details_ : option string) (db : store price) : store price * result unit :=
  let db := set_merge custom_id data db in
  let history_type := if is_new then "Stock Inicial" else "Ajuste Manual" in
  let details_ :=
    details_or details_
      (if is_new then "Item creado en el sistema."
       else "Item actualizado manualmente.") in
  let history_data :=
    mk_history (now 0%nat) history_type (quantity data) details_ in
  let db := add_history custom_id history_data db in
  (db, Ok ()).

(** [@firestore_retry def save_inventory_item] *)
Definition save_inventory_item (now : nat → time)
    (data : item_data price) (custom_id : string) (is_new : bool)
    (details_ : option string) (db : store price)
    : store price * list event * result unit :=
  firestore_retry (save_inventory_item_body now data custom_id is_new details_)
                  None db.

(** Requests that the deletion of an item sends to the store. *)
Inductive request :=
  | StreamPage (item : string) (limit returned : nat)
      (* list(coll_ref.limit(batch_size).stream()) *)
  | CommitBatch (item : string) (refs : list nat)
      (* batch.delete(doc.reference) for each doc; batch.commit() *)
  | DeleteDocument (item : string).
      (* doc_ref.delete() *)

(** A committed batch of deletions removes the documents it names. *)
Definition delete_docs (item : string) (refs : list nat)
    (db : store price) : store price :=
  mk_store (inventory db)
           (<[item := filter (λ d, d.1 ∉ refs) (history_of db item)]> (history db))
           (orders db).

(** [_delete_collection_batch] on the history of [item]. The function calls
    itself once for every full page, each call within the one before, and
    the interpreter lets calls nest only as deep as its recursion limit
    allows. [depth] is the number of calls of the function that the limit
    leaves room for when the first one is made; the call after those raises
    [RecursionError] as it is made, before any request of its own, and the
    batches committed by then stay deleted. *)
Fixpoint _delete_collection_batch (depth : nat) (item : string)
    (batch_size : nat) (db : store price) (reqs : list request)
    : store price * list request * result unit :=
  match depth with
  | O => (db, reqs, Raise recursion_error)
  | S depth =>
      let docs := take batch_size (history_of db item) in
      let reqs := reqs ++ [StreamPage item batch_size (length docs)] in
      let '(db, reqs, deleted) :=
        if (0 <? length docs)%nat then
          (delete_docs item docs.*1 db, reqs ++ [CommitBatch item docs.*1],
           length docs)
        else (db, reqs, 0%nat) in
      if (batch_size <=? deleted)%nat then
        _delete_collection_batch depth item batch_size db reqs
      else (db, reqs, Ok ())
  end.

(** [delete_inventory_item]: the history first, then the document of the
    item. An exception of the first step is logged and raised again, and
    the document of the item stays. *)
Definition delete_inventory_item (depth : nat) (doc_id : string)
    (db : store price) : store price * list request * result unit :=
  match _delete_collection_batch depth doc_id 20 db [] with
  | (db, reqs, Ok _) =>
      (mk_store (delete doc_id (inventory db)) (history db) (orders db),
       reqs ++ [DeleteDocument doc_id], Ok ())
  | (db, reqs, Raise e) => (db, reqs, Raise e)
  end.

End Repository.

(** ** Prices in whole currency units *)

(** Three digits, as they follow a thousands separator. *)
Definition pad3 (n : N) : string :=
  (if (n <? 10)%N then "00" else if (n <? 100)%N then "0" else "") +:+ pretty n.

Fixpoint group_thousands (digits : nat) (n : N) : string :=
  match digits with
  | O => pretty n
  | S digits =>
      if (n <? 1000)%N then pretty n
      else group_thousands digits (n / 1000)%N +:+ "," +:+ pad3 (n mod 1000)%N
  end.

(** Prices that are whole amounts, for the examples. The code adds prices
    as floats, starting from [0.0]: its sums are the ones below as long as
    every amount stays under [2^53], where the floats are exact, and the
    examples stay far under it. An amount with cents is not of this type. *)
#[global] Instance Z_money : Money Z := {|
  zero_price := 0;
  add_price := Z.add;
  mul_price := Z.mul;
  fmt_price p :=
    (if p <? 0 then "-" else "")
    +:+ group_thousands (N.to_nat (N.log2 (Z.abs_N p))) (Z.abs_N p) +:+ ".00"
|}.

(** ** Vocabulary of the statements *)

Section Vocabulary.
Context {price : Type} `{Money price}.
Implicit Types (db : store price) (ing : line_item price).

(** The quantity the ledger reads for an item, [item_data.get('quantity', 0)],
    taken as [0] too when the item has no document. *)
Definition quantity_of db (item : string) : Z :=
  get (inventory db !! item ≫= quantity) 0.

(** A line whose item is in the inventory with at least the requested
    quantity; one whose item is there with less. *)
Definition in_stock db ing : Prop :=
  ∃ d, inventory db !! li_id ing = Some d ∧ li_quantity ing ≤ get (quantity d) 0.

Definition short db ing : Prop :=
  ∃ d, inventory db !! li_id ing = Some d ∧ get (quantity d) 0 < li_quantity ing.

(** What one iteration of the first loop appends to [items_to_update] when
    it does not raise. *)
Definition line_update db ing : option (item_update price) :=
  d ← inventory db !! li_id ing;
  if get (quantity d) 0 <? li_quantity ing then None
  else Some (mk_update (li_id ing) (get (quantity d) 0 - li_quantity ing) d
                       (li_quantity ing)).

(** The exception of the stock check of [_complete_order_atomic]. *)
Definition stock_error ing (current_quantity : Z) : exn :=
  ValueError ("Stock insuficiente para '" +:+ fmt_name (li_name ing)
              +:+ "'. Disponible: " +:+ fmt_int current_quantity).

(** The writes that the second loop stages, two for each update. *)
Fixpoint item_writes (now : nat → time) (type_ details_ : string) (tick : nat)
    (ups : list (item_update price)) : list (write price) :=
  match ups with
  | [] => []
  | u :: ups =>
      UpdateQuantity (ref u) (new_quantity u)
      :: SetHistory (ref u)
           (mk_history (now tick) type_ (Some (- line_quantity u)) details_)
      :: item_writes now type_ details_ (S tick) ups
  end.

(** All that [_complete_order_atomic] stages when it succeeds. *)
Definition completed_txn (now : nat → time) (order_id : string)
    (us : list (item_update price)) : list (write price) :=
  item_writes now "Venta Completada" ("Venta ID: " +:+ order_id) 0 us
  ++ [UpdateCompleted order_id (now (length us))].

(** The alerts that the second loop collects. *)
Definition alerts_of (alert : item_update price → string)
    (ups : list (item_update price)) : list string :=
  alert <$> filter (λ u, low_stock (min_stock_alert (upd_item_data u))
                                   (new_quantity u) = true) ups.

(** The last update staged for an item, and the history entries staged for
    it. *)
Definition last_update (item : string) (ups : list (item_update price))
    : option (item_update price) :=
  last (filter (λ u, ref u = item) ups).

Fixpoint new_entries (now : nat → time) (type_ details_ : string) (tick : nat)
    (item : string) (ups : list (item_update price)) : list history_data :=
  match ups with
  | [] => []
  | u :: ups =>
      (if decide (ref u = item)
       then [mk_history (now tick) type_ (Some (- line_quantity u)) details_]
       else [])
      ++ new_entries now type_ details_ (S tick) item ups
  end.

(** The history entries of a sale, one for each line and in the order of the
    lines, each with the item it belongs to. *)
Fixpoint line_entries (now : nat → time) (type_ details_ : string) (tick : nat)
    (lines : list (line_item price)) : list (string * history_data) :=
  match lines with
  | [] => []
  | ing :: lines =>
      (li_id ing, mk_history (now tick) type_ (Some (- li_quantity ing)) details_)
      :: line_entries now type_ details_ (S tick) lines
  end.

(** Writes to an order document. *)
Definition order_write (w : write price) : bool :=
  match w with
  | UpdateCompleted _ _ | SetOrder _ _ => true
  | UpdateQuantity _ _ | SetHistory _ _ => false
  end.

End Vocabulary.

(** Sum of the [quantity_change] of history entries; an entry without one
    adds nothing. *)
Definition sum_changes (hs : list history_data) : Z :=
  foldr (λ h s, get (quantity_change h) 0 + s) 0 hs.

Definition history_sum {price} (db : store price) (item : string) : Z :=
  sum_changes (history_of db item).*2.

(** Sum of the quantities that the lines request. *)
Definition requested {price} (lines : list (line_item price)) : Z :=
  foldr (λ ing s, li_quantity ing + s) 0 lines.

(** The lines of an order, [order_data.get('ingredients', [])]. *)
Definition lines_of {price} (o : order_data price) : list (line_item price) :=
  get (ingredients o) [].

(** An order document with another [status], and a store with an order
    document put in it. *)
Definition with_status {price} (s : option string) (o : order_data price)
    : order_data price :=
  mk_order (title o) (o_price o) (ingredients o) s (timestamp o)
           (completed_at o) (payment_method o) (customer_name o)
           (is_direct_sale o).

Definition put_order {price} (order_id : string) (o : order_data price)
    (db : store price) : store price :=
  mk_store (inventory db) (history db) (<[order_id := o]> (orders db)).

(** Two stores with the same inventory, the same histories and orders under
    the same ids. *)
Definition same_stock {price} (db1 db2 : store price) : Prop :=
  inventory db1 = inventory db2
  ∧ history db1 = history db2
  ∧ ∀ k, is_Some (orders db1 !! k) ↔ is_Some (orders db2 !! k).

Section SaleVocabulary.
Context {price : Type} `{Money price}.
Implicit Types (db : store price).

(** The prices the store has for an item, as [_process_direct_sale_atomic]
    reads them: [item_data.get('sale_price', 0.0)] and
    [item_data.get('purchase_price', 0.0)]. *)
Definition store_sale_price db (item : string) : price :=
  get (inventory db !! item ≫= sale_price) zero_price.

Definition store_purchase_price db (item : string) : price :=
  get (inventory db !! item ≫= purchase_price) zero_price.

(** The sum, from [total] on and in the order of the lines, of the store's
    sale price of each line times the quantity it requests. *)
Definition sale_total db (lines : list (line_item price)) (total : price) : price :=
  foldl (λ total it,
           add_price total
             (mul_price (store_sale_price db (li_id it)) (li_quantity it)))
        total lines.

(** A line of a direct sale as the order keeps it: name and prices are the
    store's. *)
Definition enrich db (it : line_item price) : line_item price :=
  mk_line (li_id it) (inventory db !! li_id it ≫= name) (li_quantity it)
          (Some (store_sale_price db (li_id it)))
          (Some (store_purchase_price db (li_id it))).

(** The order document of a direct sale with [n] lines. *)
Definition sale_order db (now : nat → time) (lines : list (line_item price))
    (sale_id : string) (payment_data : payment) : order_data price :=
  mk_order (Some ("Venta Directa " +:+ last_segment sale_id ""))
           (Some (sale_total db lines zero_price))
           (Some (enrich db <$> lines))
           (Some "completed")
           (Some (now (length lines)))
           (Some (now (S (length lines))))
           (Some (get (method payment_data) "efectivo"))
           (Some (get (customer payment_data) "Cliente General"))
           (Some true).

(** All that [_process_direct_sale_atomic] stages when it succeeds. *)
Definition sale_txn db (now : nat → time) (lines : list (line_item price))
    (sale_id : string) (payment_data : payment)
    (us : list (item_update price)) : list (write price) :=
  item_writes now "Venta Directa" ("ID Venta: " +:+ sale_id) 0 us
  ++ [SetOrder sale_id (sale_order db now lines sale_id payment_data)].

(** The [payment_data] that [process_direct_sale] hands on. *)
Definition payment_or_default (payment_data : option payment) : payment :=
  match payment_data with
  | None => mk_payment (Some "efectivo") (Some "Cliente General")
  | Some p => p
  end.

(** Two lines that ask the same: same item, same name, same quantity; the
    prices attached to them may differ. *)
Definition same_request (a b : line_item price) : Prop :=
  li_id a = li_id b ∧ li_name a = li_name b ∧ li_quantity a = li_quantity b.

(** The condition for a low-stock alert, in the words of the specification:
    [0 < newQuantity ≤ minStockAlert] and [minStockAlert > 0]. *)
Definition alert_condition (min_stock_alert : option Z) (new_quantity : Z) : Prop :=
  ∃ m, min_stock_alert = Some m ∧ 0 < new_quantity ∧ new_quantity ≤ m ∧ m > 0.

#[global] Instance alert_condition_dec msa nq : Decision (alert_condition msa nq).
Proof.
  refine (match msa with
          | Some m => cast_if (decide (0 < nq ∧ nq ≤ m ∧ m > 0))
          | None => right _
          end); unfold alert_condition.
  - exists m. tauto.
  - intros (m' & [= <-] & ?). tauto.
  - by intros (m' & ? & _).
Defined.

End SaleVocabulary.

Section AlertVocabulary.
Context {price : Type} `{Money price}.
Implicit Types (db : store price) (ing : line_item price).

(** The alert threshold that the store has for an item. *)
Definition threshold_of db (item : string) : option Z :=
  inventory db !! item ≫= min_stock_alert.

(** What the first loop stages for a line that it accepts: the update names
    the item of the line, carries the document of the item as read at the
    start, and has as its new quantity what the line alone would leave. *)
Definition update_of_line db ing (u : item_update price) : Prop :=
  ref u = li_id ing
  ∧ inventory db !! li_id ing = Some (upd_item_data u)
  ∧ new_quantity u = quantity_of db (li_id ing) - li_quantity ing.

(** In the store [db'] that a call leaves, the updates of the lines that
    are the last to name their item have the quantity and the threshold
    that the item has in [db']. *)
Definition reports_new_quantity db' (lines : list (line_item price))
    (us : list (item_update price)) : Prop :=
  ∀ pre ing post u,
    lines = pre ++ ing :: post →
    li_id ing ∉ li_id <$> post →
    us !! length pre = Some u →
    new_quantity u = quantity_of db' (li_id ing)
    ∧ min_stock_alert (upd_item_data u) = threshold_of db' (li_id ing).

End AlertVocabulary.

(** ** Sequences of operations *)

Inductive op (price : Type) :=
  | SaveItem (now : nat → time) (data : item_data price) (custom_id : string)
      (is_new : bool) (details_ : option string)
  | CompleteOrder (now : nat → time) (order_id : string)
  | ProcessDirectSale (now : nat → time) (items_sold : list (line_item price))
      (sale_id : string) (payment_data : option payment).
Arguments SaveItem {price}.
Arguments CompleteOrder {price}.
Arguments ProcessDirectSale {price}.

Section Operations.
Context {price : Type} `{Money price}.

(** The store after an operation. *)
Definition run_op (o : op price) (db : store price) : store price :=
  match o with
  | SaveItem now data custom_id is_new details_ =>
      (save_inventory_item now data custom_id is_new details_ db).1.1
  | CompleteOrder now order_id => (complete_order now order_id db).1
  | ProcessDirectSale now items_sold sale_id payment_data =>
      (process_direct_sale now items_sold sale_id payment_data db).1
  end.

Definition run (ops : list (op price)) (db : store price) : store price :=
  foldl (λ db o, run_op o db) db ops.

(** Lines that name [item] at most once. *)
Definition names_once (item : string) (lines : list (line_item price)) : Prop :=
  (length (filter (λ l, li_id l = item) lines) ≤ 1)%nat.

(** An operation through which the history of [item] keeps step with its
    quantity: a sale or a completion that names the item in one line at
    most, a save of another item. *)
Definition keeps_step (item : string) (o : op price) (db : store price) : Prop :=
  match o with
  | SaveItem _ _ custom_id _ _ => custom_id ≠ item
  | CompleteOrder _ order_id =>
      ∀ od, orders db !! order_id = Some od → names_once item (lines_of od)
  | ProcessDirectSale _ items_sold _ _ => names_once item items_sold
  end.

(** A sequence of such operations, run from [db]. *)
Fixpoint ledger_run (item : string) (ops : list (op price)) (db : store price)
    : Prop :=
  match ops with
  | [] => True
  | o :: ops => keeps_step item o db ∧ ledger_run item ops (run_op o db)
  end.

End Operations.

(** ** Reading the requests of a deletion *)

(** The batches committed (each the ids it deletes), the sizes of the pages
    streamed and the documents deleted, in the order of the requests. *)
Definition batches (reqs : list request) : list (list nat) :=
  omap (λ r, match r with CommitBatch _ refs => Some refs | _ => None end) reqs.

Definition pages (reqs : list request) : list nat :=
  omap (λ r, match r with StreamPage _ _ n => Some n | _ => None end) reqs.

Definition doc_deletions (reqs : list request) : list string :=
  omap (λ r, match r with DeleteDocument item => Some item | _ => None end) reqs.

(** [⌈n / b⌉] *)
Definition ceil_div (n b : nat) : nat := ((n + (b - 1)) / b)%nat.

(** ** A small shop *)

(** The store and the calls on which the statements below are tried, with
    prices in whole units. *)

Definition clock (n : nat) : time := 1700000000 + Z.of_nat n.

(** Item A: 10 in stock, sold at 5.00, alert at 5. Item B: 4 in stock, sold
    at 10.00, no alert threshold. *)
Definition item_A : item_data Z :=
  mk_item (Some "Arroz") (Some 10) (Some 5) (Some 3) (Some 5) None.

Definition item_B : item_data Z :=
  mk_item (Some "Frijol") (Some 4) (Some 10) (Some 7) None None.

Definition line (item name_ : string) (q : Z) : line_item Z :=
  mk_line item (Some name_) q None None.

Definition order_of (lines : list (line_item Z)) (status_ : string) : order_data Z :=
  mk_order (Some "Pedido") None (Some lines) (Some status_) (Some 1699999999)
           None (Some "efectivo") (Some "Cliente General") None.

(** [o1] asks for 6 of A and for all 4 of B; [o2] names an item that is
    gone before asking for 9 of B; [o3] asks for 6 of A and for 9 of B;
    [o4] is already completed and asks for 6 of A. *)
Definition order_1 : order_data Z :=
  order_of [line "A" "Arroz" 6; line "B" "Frijol" 4] "processing".

Definition order_2 : order_data Z :=
  order_of [line "X" "Azucar" 1; line "B" "Frijol" 9] "processing".

Definition order_3 : order_data Z :=
  order_of [line "A" "Arroz" 6; line "B" "Frijol" 9] "processing".

Definition order_4 : order_data Z :=
  order_of [line "A" "Arroz" 6] "completed".

Definition shop : store Z :=
  mk_store (<["A" := item_A]> (<["B" := item_B]> ∅))
           ∅
           (<["o1" := order_1]> (<["o2" := order_2]>
              (<["o3" := order_3]> (<["o4" := order_4]> ∅)))).

(** A basket of 2 of A and 1 of B on which the caller wrote prices of 1.00,
    and the same basket with no prices. *)
Definition basket : list (line_item Z) :=
  [mk_line "A" (Some "Arroz") 2 (Some 1) (Some 1);
   mk_line "B" (Some "Frijol") 1 (Some 1) (Some 1)].

Definition basket_unpriced : list (line_item Z) :=
  [line "A" "Arroz" 2; line "B" "Frijol" 1].


(** A basket that names A twice, for 9 and for 1 of the 10 in stock. *)
Definition basket_nine_one : list (line_item Z) :=
  [line "A" "Arroz" 9; line "A" "Arroz" 1].

(** [o5] asks for all 10 of A and then for 3 of A. *)
Definition order_5 : order_data Z :=
  order_of [line "A" "Arroz" 10; line "A" "Arroz" 3] "processing".

Definition shop_with_order_5 : store Z := put_order "o5" order_5 shop.

(** The store with no document at all. *)
Definition no_documents : store Z := mk_store ∅ ∅ ∅.

(** An item is created with 10 in stock and then adjusted to 15. *)
Definition create_then_adjust : list (op Z) :=
  [SaveItem clock (mk_item (Some "Arroz") (Some 10) (Some 5) (Some 3) (Some 5) None)
            "A" true None;
   SaveItem clock (mk_item None (Some 15) None None None None) "A" false None].

(** An order is completed, B is restocked and a direct sale follows. *)
Definition complete_then_sell : list (op Z) :=
  [CompleteOrder clock "o1";
   SaveItem clock (mk_item None (Some 12) None None None None) "B" false None;
   ProcessDirectSale clock [line "A" "Arroz" 2; line "B" "Frijol" 1] "Venta-7" None].

(** Data for a save that renames A and says nothing of its quantity. *)
Definition rename_A : item_data Z :=
  mk_item (Some "Arroz integral") None None None None None.

(** A store in which A has 45 history documents. *)
Definition long_history : collection :=
  (λ n, (n, mk_history (clock n) "Venta Directa" (Some (-1)) "ID Venta: Venta-0"))
  <$> seq 1 45.

Definition archive : store Z :=
  mk_store (<["A" := item_A]> ∅) (<["A" := long_history]> ∅) ∅.

(** A store in which A has [n] history documents, one for each sale. *)
Definition sales_history (n : nat) : collection :=
  (λ k, (k, mk_history (clock k) "Venta Directa" (Some (-1)) "ID Venta: Venta-0"))
  <$> seq 1 n.

Definition busy_archive (n : nat) : store Z :=
  mk_store (<["A" := item_A]> ∅) (<["A" := sales_history n]> ∅) ∅.

(** A wrapped function that fails at every call and counts its calls. *)
Definition always_fails (e : exn) (calls : nat) : nat * result unit :=
  (S calls, Raise e).

(** ** Queries and the other writes of [FirebaseManager] *)

(** [sorted(l, key=key)]: a stable sort, written as the insertion of each
    element, in the order of [l], behind the elements whose key is not
    above its own. [le] is the order of the keys, or its converse for
    [reverse=True], which is stable too. *)
Section StableSort.
Context {A K : Type} (le : K → K → bool) (key : A → K).

Fixpoint insert_sorted (x : A) (l : list A) : list A :=
  match l with
  | [] => [x]
  | y :: l' =>
      if le (key y) (key x) then y :: insert_sorted x l' else x :: y :: l'
  end.

Definition sorted_by (l : list A) : list A :=
  foldl (λ acc x, insert_sorted x acc) [] l.

End StableSort.

(** [datetime.min], in seconds from the epoch. *)
Definition datetime_min : time := -62135596800.

(** The ['timestamp_obj'] that [get_orders] adds to an order: its timestamp,
    or [datetime.min] when it has none. *)
Definition timestamp_obj {price} (o : order_data price) : time :=
  get (timestamp o) datetime_min.

(** The id that [collection('orders').add] gives the new document: one that
    no order has. *)
Definition fresh_order_id {price} (db : store price) : string :=
  fresh (dom (orders db)).

(** The filters of [get_orders_in_date_range]: [status == 'completed'],
    [completed_at >= start_date] and [completed_at < end_date]. An order
    without [completed_at] passes no comparison. *)
Definition completed_in {price} (start_date end_date : time)
    (o : order_data price) : bool :=
  bool_decide (status o = Some "completed")
  && match completed_at o with
     | Some t => (start_date <=? t) && (t <? end_date)
     | None => false
     end.

(** The truth value of the [status] argument of [get_orders]: [None] and the
    empty text are false. *)
Definition status_filter (status_ : option string) : option string :=
  match status_ with
  | Some EmptyString | None => None
  | Some s => Some s
  end.

Section Queries.
Context {price : Type} `{Money price}.

(** The order in which the store streams the documents of a collection or
    of a query, which the code does not choose, and [str.lower]. *)
Variable stream : ∀ V, gmap string V → list (string * V).
Variable lower : string → string.

(** [get_inventory_item_details], before decoration and decorated: the
    document with its id, or [None]. *)
Definition get_inventory_item_details_body (doc_id : string)
    (db : store price) : store price * result (option (string * item_data price)) :=
  (db, Ok ((λ item, (doc_id, item)) <$> inventory db !! doc_id)).

Definition get_inventory_item_details (doc_id : string) (db : store price)
    : store price * list event * result (option (string * item_data price)) :=
  firestore_retry (get_inventory_item_details_body doc_id) None db.

(** [get_all_inventory_items]: every document with its id, sorted by
    [x.get('name', '').lower()]. *)
Definition get_all_inventory_items_body (db : store price)
    : store price * result (list (string * item_data price)) :=
  let items := stream _ (inventory db) in
  (db, Ok (sorted_by String.leb (λ x, lower (get (name x.2) "")) items)).

Definition get_all_inventory_items (db : store price)
    : store price * list event * result (list (string * item_data price)) :=
  firestore_retry get_all_inventory_items_body None db.

(** The loop of [create_order], [for ing in order_data['ingredients']]: the
    prices of an ingredient are replaced by those of the inventory when its
    item is there. *)
Fixpoint enrich_ingredients (db : store price) (ings : list (line_item price))
    (enriched_ingredients : list (line_item price))
    : result (list (line_item price)) :=
  match ings with
  | [] => Ok enriched_ingredients
  | ing :: rest =>
      item_details ← (get_inventory_item_details (li_id ing) db).2;
      let ing :=
        match item_details with
        | Some (_, item_details) =>
            mk_line (li_id ing) (li_name ing) (li_quantity ing)
                    (Some (get (sale_price item_details) zero_price))
                    (Some (get (purchase_price item_details) zero_price))
        | None => ing
        end in
      enrich_ingredients db rest (enriched_ingredients ++ [ing])
  end.

(** [create_order]. [order_data['ingredients']] is read with [[]] and has to
    be there: it is the argument [ingredients_], and [order_data] holds the
    other keys. *)
Definition create_order_body (ingredients_ : list (line_item price))
    (order_data : order_data price) (db : store price)
    : store price * result unit :=
  match enrich_ingredients db ingredients_ [] with
  | Raise e => (db, Raise e)
  | Ok enriched_ingredients =>
      let order_data :=
        mk_order (title order_data) (o_price order_data)
                 (Some enriched_ingredients) (status order_data)
                 (timestamp order_data) (completed_at order_data)
                 (Some (get (payment_method order_data) "efectivo"))
                 (customer_name order_data) (is_direct_sale order_data) in
      (put_order (fresh_order_id db) order_data db, Ok ())
  end.

Definition create_order (ingredients_ : list (line_item price))
    (order_data : order_data price) (db : store price)
    : store price * list event * result unit :=
  firestore_retry (create_order_body ingredients_ order_data) None db.

(** [get_order_count] *)
Definition get_order_count (db : store price)
    : store price * list event * result nat :=
  firestore_retry (λ db, (db, Ok (size (orders db)))) None db.

(** [get_orders]: the orders, those of the given status when one is given,
    each with its id, the newest first. *)
Definition get_orders_body (status_ : option string) (db : store price)
    : store price * result (list (string * order_data price)) :=
  let docs :=
    match status_filter status_ with
    | Some s => stream _ (filter (λ kv, status kv.2 = Some s) (orders db))
    | None => stream _ (orders db)
    end in
  (db, Ok (sorted_by (λ a b, b <=? a) (λ x, timestamp_obj x.2) docs)).

Definition get_orders (status_ : option string) (db : store price)
    : store price * list event * result (list (string * order_data price)) :=
  firestore_retry (get_orders_body status_) None db.

(** [get_orders_in_date_range] *)
Definition get_orders_in_date_range_body (start_date end_date : time)
    (db : store price)
    : store price * result (list (string * order_data price)) :=
  (db, Ok (stream _ (filter (λ kv, completed_in start_date end_date kv.2 = true)
                            (orders db)))).

Definition get_orders_in_date_range (start_date end_date : time)
    (db : store price)
    : store price * list event * result (list (string * order_data price)) :=
  firestore_retry (get_orders_in_date_range_body start_date end_date) None db.

(** [cancel_order]: the document of the order is deleted, whether there is
    one or not. *)
Definition cancel_order_body (order_id : string) (db : store price)
    : store price * result unit :=
  (mk_store (inventory db) (history db) (delete order_id (orders db)), Ok ()).

Definition cancel_order (order_id : string) (db : store price)
    : store price * list event * result unit :=
  firestore_retry (cancel_order_body order_id) None db.

End Queries.

(** ** The dashboard and the daily report *)

Section Reports.
Context {price : Type} `{Money price}.

(** The low-stock test of the dashboard in [app.py]:
    [i.get('quantity',0) <= i.get('min_stock_alert',0) and
     i.get('min_stock_alert',0) > 0]. *)
Definition dashboard_low_stock (i : item_data price) : bool :=
  (get (quantity i) 0 <=? get (min_stock_alert i) 0)
  && (0 <? get (min_stock_alert i) 0).

(** The figures that [generate_daily_report] computes from the orders
    before it writes its prompt: gross sales, cash, credit and the lines of
    the credits. (The count of the items sold, which the same loop keeps,
    is not part of these.) *)
Fixpoint daily_figures (orders_ : list (order_data price))
    (total_sales_value cash_revenue credit_revenue : price)
    (fiado_details : list string) : price * price * price * list string :=
  match orders_ with
  | [] => (total_sales_value, cash_revenue, credit_revenue, fiado_details)
  | order :: rest =>
      let price_ := get (o_price order) zero_price in
      let total_sales_value := add_price total_sales_value price_ in
      let payment_method_ := get (payment_method order) "efectivo" in
      if String.eqb payment_method_ "fiado" then
        let customer_ := get (customer_name order) "Desconocido" in
        daily_figures rest total_sales_value cash_revenue
          (add_price credit_revenue price_)
          (fiado_details ++ ["- " +:+ customer_ +:+ ": $" +:+ fmt_price price_])
      else
        daily_figures rest total_sales_value (add_price cash_revenue price_)
          credit_revenue fiado_details
  end.

End Reports.

(** ** Vocabulary of the further properties *)

(** Two states of an inventory document that differ in its quantity at
    most: the document is there in both or in none, with the same name,
    prices, threshold and date. *)
Definition same_but_quantity {price} (a b : option (item_data price)) : Prop :=
  match a, b with
  | Some d, Some d' =>
      name d' = name d ∧ sale_price d' = sale_price d
      ∧ purchase_price d' = purchase_price d
      ∧ min_stock_alert d' = min_stock_alert d ∧ updated_at d' = updated_at d
  | None, None => True
  | _, _ => False
  end.

(** The operations of the ledger. *)
Definition ledger_op {price} (o : op price) : Prop :=
  match o with
  | SaveItem _ _ _ _ _ => False
  | CompleteOrder _ _ | ProcessDirectSale _ _ _ _ => True
  end.

(** The sleeps of a trace of the retry decorator. *)
Definition sleeps (trace : list event) : list Z :=
  omap (λ ev, match ev with Sleep delay => Some delay | _ => None end) trace.

(** Texts without a hyphen. *)
Fixpoint hyphen_free (s : string) : bool :=
  match s with
  | EmptyString => true
  | String c s' => negb (Ascii.eqb c "-"%char) && hyphen_free s'
  end.

(** An ingredient as [create_order] stores it: with the prices of the
    inventory when its item is there, as it is given when it is not. *)
Definition reprice {price} `{Money price} (db : store price)
    (ing : line_item price) : line_item price :=
  match inventory db !! li_id ing with
  | Some d =>
      mk_line (li_id ing) (li_name ing) (li_quantity ing)
              (Some (get (sale_price d) zero_price))
              (Some (get (purchase_price d) zero_price))
  | None => ing
  end.

(** ** Sample queries *)

(** A store that streams its documents in the order of their keys, and
    [str.lower] on text without accents. *)
Definition in_key_order (V : Type) (m : gmap string V) : list (string * V) :=
  map_to_list m.

Fixpoint lower_ascii (s : string) : string :=
  match s with
  | EmptyString => EmptyString
  | String c s' =>
      let n := nat_of_ascii c in
      String (if (65 <=? n)%nat && (n <=? 90)%nat
              then ascii_of_nat (n + 32) else c)
             (lower_ascii s')
  end.

(** * Properties

    ** The loops and the commit *)

Section LedgerFacts.
Context {price : Type} `{Money price}.
Implicit Types (db : store price) (ing : line_item price).
Implicit Types (u : item_update price) (ups us : list (item_update price)).
Implicit Types (ings pre post : list (line_item price)).
Implicit Types (ws : list (write price)).

Lemma stage_updates_eq now ty det alert ups : ∀ txn al tick,
  stage_updates now ty det alert ups txn al tick
  = (txn ++ item_writes now ty det tick ups, al ++ alerts_of alert ups,
     (tick + length ups)%nat).
Proof.
  induction ups as [|u ups IH]; intros txn al tick; simpl.
  - rewrite !app_nil_r. by rewrite Nat.add_0_r.
  - rewrite IH. rewrite <- !app_assoc. simpl.
    f_equal; [f_equal|lia].
    unfold alerts_of. rewrite filter_cons.
    destruct (low_stock _ _) eqn:E.
    + rewrite decide_True by done. by rewrite <- app_assoc.
    + rewrite decide_False by done. done.
Qed.

Lemma line_update_Some db ing u :
  line_update db ing = Some u ↔
  ∃ d, inventory db !! li_id ing = Some d
       ∧ li_quantity ing ≤ get (quantity d) 0
       ∧ u = mk_update (li_id ing) (get (quantity d) 0 - li_quantity ing) d
                       (li_quantity ing).
Proof.
  unfold line_update. destruct (inventory db !! li_id ing) as [d|]; simpl.
  - destruct (Z.ltb_spec (get (quantity d) 0) (li_quantity ing)).
    + split; [done|]. intros (d' & [= <-] & ? & _). lia.
    + split.
      * intros [= <-]. eauto.
      * intros (d' & [= <-] & _ & ->). done.
  - split; [done|]. by intros (d' & ? & _).
Qed.

(** The updates of a list of lines that can all be served: that of the
    first line, whose stock test is negative, and those of the others. *)
Lemma mapM_line_update_cons db ing ings us :
  mapM (line_update db) (ing :: ings) = Some us →
  ∃ d us', inventory db !! li_id ing = Some d
    ∧ li_quantity ing ≤ get (quantity d) 0
    ∧ (get (quantity d) 0 <? li_quantity ing) = false
    ∧ mapM (line_update db) ings = Some us'
    ∧ us = mk_update (li_id ing) (get (quantity d) 0 - li_quantity ing) d
                     (li_quantity ing) :: us'.
Proof.
  rewrite mapM_Some. intros Hm. inversion Hm as [|? u ? us' Hu Hus]; subst.
  apply line_update_Some in Hu as (d & Hd & Hq & ->).
  exists d, us'. split_and!; [done..| |by apply mapM_Some|done].
  by apply Z.ltb_ge.
Qed.

(** Conversely, a line that can be served goes before lines that can. *)
Lemma mapM_line_update_intro db ings ing us u :
  mapM (line_update db) ings = Some us →
  line_update db ing = Some u →
  mapM (line_update db) (ing :: ings) = Some (u :: us).
Proof.
  intros Hm Hu. apply mapM_Some. constructor; [done|by apply mapM_Some].
Qed.

Lemma check_ingredients_Ok db ings us :
  mapM (line_update db) ings = Some us →
  ∀ acc, check_ingredients db ings acc = Ok (acc ++ us).
Proof.
  revert us. induction ings as [|ing ings IH]; intros us Hm acc.
  - injection Hm as <-. by rewrite app_nil_r.
  - apply mapM_line_update_cons in Hm as (d & us' & Hd & _ & Hlt & Hus & ->).
    simpl. rewrite Hd, Hlt, (IH us' Hus). by rewrite <- app_assoc.
Qed.

Lemma check_ingredients_missing db pre ing post us :
  mapM (line_update db) pre = Some us →
  inventory db !! li_id ing = None →
  ∀ acc, check_ingredients db (pre ++ ing :: post) acc
  = Raise (ValueError ("Producto '" +:+ fmt_name (li_name ing)
                       +:+ "' ya no existe en inventario.")).
Proof.
  intros Hm Hd. revert us Hm.
  induction pre as [|p pre IH]; intros us Hm acc; simpl.
  - by rewrite Hd.
  - apply mapM_line_update_cons in Hm as (d & us' & Hp & _ & Hlt & Hus & ->).
    rewrite Hp, Hlt. by apply (IH us').
Qed.

Lemma check_ingredients_short db pre ing post us d :
  mapM (line_update db) pre = Some us →
  inventory db !! li_id ing = Some d →
  get (quantity d) 0 < li_quantity ing →
  ∀ acc, check_ingredients db (pre ++ ing :: post) acc
  = Raise (stock_error ing (get (quantity d) 0)).
Proof.
  intros Hm Hd Hlt. revert us Hm.
  induction pre as [|p pre IH]; intros us Hm acc; simpl.
  - rewrite Hd. by destruct (Z.ltb_spec (get (quantity d) 0) (li_quantity ing)); [|lia].
  - apply mapM_line_update_cons in Hm as (d' & us' & Hp & _ & Hlt' & Hus & ->).
    rewrite Hp, Hlt'. by apply (IH us').
Qed.

(** The lines split at the first one that cannot be served. *)
Lemma first_unserved db ings :
  mapM (line_update db) ings = None →
  ∃ pre ing post us, ings = pre ++ ing :: post
    ∧ mapM (line_update db) pre = Some us ∧ line_update db ing = None.
Proof.
  induction ings as [|ing ings IH]; [done|]. intros Hm.
  destruct (line_update db ing) as [u|] eqn:Hu.
  - destruct (mapM (line_update db) ings) as [us|] eqn:Hrest.
    + by rewrite (mapM_line_update_intro db ings ing us u) in Hm.
    + destruct IH as (pre & x & post & us & -> & Hpre & Hx); [done|].
      exists (ing :: pre), x, post, (u :: us). split_and!; [done| |done].
      by apply mapM_line_update_intro.
  - exists [], ing, ings, []. done.
Qed.

Lemma check_ingredients_Raise db ings :
  mapM (line_update db) ings = None →
  ∃ e, ∀ acc, check_ingredients db ings acc = Raise e.
Proof.
  intros (pre & ing & post & us & -> & Hpre & Hing)%first_unserved.
  destruct (inventory db !! li_id ing) as [d|] eqn:Hd.
  - eexists. intros acc. eapply check_ingredients_short; [done..|].
    unfold line_update in Hing. rewrite Hd in Hing. simpl in Hing.
    destruct (Z.ltb_spec (get (quantity d) 0) (li_quantity ing)); [lia|done].
  - eexists. intros acc. by eapply check_ingredients_missing.
Qed.

Lemma commit_app ws1 ws2 db :
  commit (ws1 ++ ws2) db = commit ws1 db ≫= commit ws2.
Proof.
  revert db. induction ws1 as [|w ws1 IH]; intros db; simpl; [done|].
  destruct (apply_write w db) as [db'|e]; simpl; [apply IH|done].
Qed.

Lemma fresh_id_fresh (coll : collection) : fresh_id coll ∉ coll.*1.
Proof.
  unfold fresh_id. intros Hin.
  assert (∀ (l : list nat) n, n ∈ l → (n ≤ foldr Nat.max 0 l)%nat) as Hmax.
  { induction l as [|x l IH]; intros n Hn; [by apply elem_of_nil in Hn|].
    apply elem_of_cons in Hn as [->|Hn]; simpl; [lia|].
    specialize (IH n Hn). lia. }
  apply Hmax in Hin. lia.
Qed.

Lemma history_of_add_history db i h j :
  history_of (add_history i h db) j
  = if decide (i = j) then history_of db i ++ [(fresh_id (history_of db i), h)]
    else history_of db j.
Proof.
  unfold add_history, history_of at 1. simpl. rewrite lookup_insert.
  by destruct (decide (i = j)).
Qed.

Lemma add_history_NoDup db item h i :
  NoDup (history_of db i).*1 → NoDup (history_of (add_history item h db) i).*1.
Proof.
  intros Hnd. rewrite history_of_add_history.
  destruct (decide (item = i)) as [<-|]; [|done].
  rewrite fmap_app. apply NoDup_app. split_and!; [done| |apply NoDup_singleton].
  intros x Hx [->|?%elem_of_nil]%elem_of_cons; [|done].
  by apply fresh_id_fresh in Hx.
Qed.

Lemma last_update_cons i u ups :
  last_update i (u :: ups)
  = match last_update i ups with
    | Some u' => Some u'
    | None => if decide (ref u = i) then Some u else None
    end.
Proof.
  unfold last_update. rewrite filter_cons.
  destruct (decide (ref u = i)); [|by destruct (last _)].
  destruct (filter _ ups) as [|x l] eqn:E; [done|].
  change (last (u :: x :: l)) with (last (x :: l)).
  destruct (last (x :: l)) eqn:El; [done|].
  by apply last_None in El.
Qed.

Lemma commit_item_writes now ty det ups : ∀ tick db,
  Forall (λ u, is_Some (inventory db !! ref u)) ups →
  ∃ db', commit (item_writes now ty det tick ups) db = Ok db'
    ∧ orders db' = orders db
    ∧ (∀ i, inventory db' !! i
            = match last_update i ups with
              | Some u => set_quantity (new_quantity u) <$> inventory db !! i
              | None => inventory db !! i
              end)
    ∧ (∀ i, (history_of db' i).*2
            = (history_of db i).*2 ++ new_entries now ty det tick i ups)
    ∧ (∀ i, NoDup (history_of db i).*1 → NoDup (history_of db' i).*1).
Proof.
  induction ups as [|u ups IH]; intros tick db Hall.
  - exists db. split_and!; try done. intros i. by rewrite app_nil_r.
  - inversion Hall as [|? ? [d Hd] Hrest]; subst. simpl. rewrite Hd. simpl.
    set (h := mk_history (now tick) ty (Some (- line_quantity u)) det).
    set (db1 := mk_store (<[ref u := set_quantity (new_quantity u) d]> (inventory db))
                         (history db) (orders db)).
    destruct (IH (S tick) (add_history (ref u) h db1)) as (db' & Hc & Ho & Hi & Hh & Hn).
    { eapply Forall_impl; [exact Hrest|]. intros u' [d' Hd']. simpl.
      rewrite lookup_insert. destruct (decide (ref u = ref u')); eauto. }
    exists db'. split_and!; [done|by rewrite Ho| | |].
    + intros i. rewrite Hi, last_update_cons. simpl. rewrite lookup_insert.
      destruct (last_update i ups) as [u'|]; destruct (decide (ref u = i)) as [<-|];
        simpl; try done.
      * by rewrite Hd.
      * by rewrite Hd.
    + intros i. rewrite Hh, history_of_add_history.
      assert (history_of db1 (ref u) = history_of db (ref u)) as -> by done.
      assert (history_of db1 i = history_of db i) as -> by done.
      destruct (decide (ref u = i)) as [<-|]; [|done].
      by rewrite fmap_app, <- app_assoc.
    + intros i Hnd. by apply Hn, add_history_NoDup.
Qed.

Lemma mapM_line_update_exists db ings us :
  mapM (line_update db) ings = Some us →
  Forall (λ u, is_Some (inventory db !! ref u)) us.
Proof.
  rewrite mapM_Some. induction 1 as [|ing u ings us Hu _ IH]; constructor; [|done].
  apply line_update_Some in Hu as (d & Hd & _ & ->). simpl. eauto.
Qed.

Lemma _complete_order_atomic_Ok now oid db o us :
  orders db !! oid = Some o →
  mapM (line_update db) (get (ingredients o) []) = Some us →
  _complete_order_atomic now oid db
  = Ok ((true, "Venta '" +:+ fmt_name (title o) +:+ "' finalizada correctamente.",
         alerts_of completed_alert us), completed_txn now oid us).
Proof.
  intros Ho Hm. unfold _complete_order_atomic. rewrite Ho.
  rewrite (check_ingredients_Ok _ _ _ Hm). simpl.
  rewrite stage_updates_eq. done.
Qed.

Lemma _complete_order_atomic_Raise now oid db o :
  orders db !! oid = Some o →
  mapM (line_update db) (get (ingredients o) []) = None →
  ∃ e, _complete_order_atomic now oid db = Raise e.
Proof.
  intros Ho Hm. unfold _complete_order_atomic. rewrite Ho.
  destruct (check_ingredients_Raise _ _ Hm) as [e He]. exists e.
  by rewrite He.
Qed.

Lemma complete_order_Raise now oid db e :
  _complete_order_atomic now oid db = Raise e →
  complete_order now oid db
  = (db, (false, "Error transacción: " +:+ str_exn e, [])).
Proof. intros He. unfold complete_order, transactional. by rewrite He. Qed.

Lemma commit_completed_txn now oid db o us :
  orders db !! oid = Some o →
  Forall (λ u, is_Some (inventory db !! ref u)) us →
  ∃ db', commit (completed_txn now oid us) db = Ok db'
    ∧ orders db' = <[oid := set_completed (now (length us)) o]> (orders db)
    ∧ (∀ i, inventory db' !! i
            = match last_update i us with
              | Some u => set_quantity (new_quantity u) <$> inventory db !! i
              | None => inventory db !! i
              end)
    ∧ (∀ i, (history_of db' i).*2
            = (history_of db i).*2
              ++ new_entries now "Venta Completada" ("Venta ID: " +:+ oid) 0 i us)
    ∧ (∀ i, NoDup (history_of db i).*1 → NoDup (history_of db' i).*1).
Proof.
  intros Ho Hall.
  destruct (commit_item_writes now "Venta Completada" ("Venta ID: " +:+ oid)
              us 0%nat db Hall) as (db1 & Hc & Ho1 & Hi & Hh & Hn).
  unfold completed_txn. rewrite commit_app, Hc. simpl.
  rewrite Ho1, Ho. simpl. eexists. split_and!; [done|simpl; congruence|done..].
Qed.

Lemma complete_order_Ok now oid db o us :
  orders db !! oid = Some o →
  mapM (line_update db) (get (ingredients o) []) = Some us →
  ∃ db', complete_order now oid db
         = (db', (true, "Venta '" +:+ fmt_name (title o)
                         +:+ "' finalizada correctamente.",
                  alerts_of completed_alert us))
    ∧ commit (completed_txn now oid us) db = Ok db'.
Proof.
  intros Ho Hm.
  destruct (commit_completed_txn now oid db o us Ho
              (mapM_line_update_exists _ _ _ Hm)) as (db' & Hc & _).
  exists db'. split; [|done].
  unfold complete_order, transactional.
  by rewrite (_complete_order_atomic_Ok _ _ _ _ _ Ho Hm), Hc.
Qed.
End LedgerFacts.

(** ** Updates and lines *)

Section Lines.
Context {price : Type} `{Money price}.
Implicit Types (db : store price) (ing : line_item price).
Implicit Types (u : item_update price) (ups us : list (item_update price)).
Implicit Types (ings pre post lines : list (line_item price)).

Lemma in_stock_line_update db ing : in_stock db ing ↔ is_Some (line_update db ing).
Proof.
  split.
  - intros (d & Hd & Hq). eexists. apply line_update_Some. eauto.
  - intros [u (d & Hd & Hq & _)%line_update_Some]. by exists d.
Qed.

Lemma in_stock_mapM db ings :
  Forall (in_stock db) ings ↔ is_Some (mapM (line_update db) ings).
Proof.
  rewrite mapM_is_Some. apply Forall_proper; [|done].
  intros ing. apply in_stock_line_update.
Qed.

Lemma short_line_update db ing : short db ing → line_update db ing = None.
Proof.
  intros (d & Hd & Hq). unfold line_update. rewrite Hd. simpl.
  by destruct (Z.ltb_spec (get (quantity d) 0) (li_quantity ing)); [|lia].
Qed.

Lemma mapM_app_inv db pre post us :
  mapM (line_update db) (pre ++ post) = Some us →
  ∃ us1 us2, us = us1 ++ us2 ∧ mapM (line_update db) pre = Some us1
             ∧ mapM (line_update db) post = Some us2.
Proof.
  rewrite mapM_Some. intros (us1 & us2 & H1 & H2 & ->)%Forall2_app_inv_l.
  exists us1, us2. by rewrite !mapM_Some.
Qed.

Lemma mapM_refs db ings us :
  mapM (line_update db) ings = Some us → ref <$> us = li_id <$> ings.
Proof.
  rewrite mapM_Some. induction 1 as [|ing u ings us Hu _ IH]; [done|].
  apply line_update_Some in Hu as (d & _ & _ & ->).
  rewrite !fmap_cons. f_equal. exact IH.
Qed.

Lemma new_entries_lines now ty det i db ings : ∀ us tick,
  mapM (line_update db) ings = Some us →
  new_entries now ty det tick i us
  = (filter (λ e, e.1 = i) (line_entries now ty det tick ings)).*2.
Proof.
  induction ings as [|ing ings IH]; intros us tick Hm.
  - by injection Hm as <-.
  - apply mapM_line_update_cons in Hm as (d & us' & _ & _ & _ & Hus & ->).
    simpl. rewrite filter_cons. simpl. rewrite (IH us' (S tick) Hus).
    by destruct (decide (li_id ing = i)).
Qed.

Lemma sum_line_entries now ty det lines : ∀ tick,
  sum_changes (line_entries now ty det tick lines).*2 = - requested lines.
Proof.
  induction lines as [|ing lines IH]; intros tick; simpl; [done|].
  rewrite IH. lia.
Qed.

Lemma sum_changes_app hs1 hs2 :
  sum_changes (hs1 ++ hs2) = sum_changes hs1 + sum_changes hs2.
Proof. induction hs1 as [|h hs1 IH]; simpl; [done|]. rewrite IH. lia. Qed.

Lemma filter_none {A} (P : A → Prop) `{∀ x, Decision (P x)} (l : list A) :
  Forall (λ x, ¬ P x) l → filter P l = [].
Proof.
  induction 1 as [|x l Hx _ IH]; [done|].
  by rewrite filter_cons, decide_False.
Qed.

Lemma last_update_absent i us : i ∉ ref <$> us → last_update i us = None.
Proof.
  intros Hi. unfold last_update.
  rewrite filter_none; [done|].
  apply Forall_forall. intros u Hu <-.
  apply Hi, list_elem_of_fmap. eauto.
Qed.

Lemma last_update_line db pre ing post us :
  mapM (line_update db) (pre ++ ing :: post) = Some us →
  li_id ing ∉ li_id <$> post →
  ∃ d, inventory db !! li_id ing = Some d
    ∧ li_quantity ing ≤ get (quantity d) 0
    ∧ last_update (li_id ing) us
      = Some (mk_update (li_id ing) (get (quantity d) 0 - li_quantity ing) d
                        (li_quantity ing)).
Proof.
  intros (us1 & us2' & -> & H1 & H2)%mapM_app_inv Hlast.
  apply mapM_line_update_cons in H2 as (d & us2 & Hd & Hq & _ & Hus & ->).
  exists d. split_and!; [done..|].
  unfold last_update. rewrite filter_app, filter_cons. simpl.
  rewrite decide_True by done.
  rewrite (filter_none _ us2); [by rewrite last_snoc|].
  apply Forall_forall. intros u Hu Hr.
  apply Hlast. rewrite <- (mapM_refs db post us2 Hus).
  apply list_elem_of_fmap. eauto.
Qed.

Lemma quantity_of_lookup db i d :
  inventory db !! i = Some d → quantity_of db i = get (quantity d) 0.
Proof. intros Hd. unfold quantity_of. by rewrite Hd. Qed.

End Lines.

(** ** [complete_order] *)

Section CompleteOrder.
Context {price : Type} `{Money price}.
Implicit Types (db : store price) (ing : line_item price) (o : order_data price).
Implicit Types (u : item_update price) (ups us : list (item_update price)).
Implicit Types (ings pre post lines : list (line_item price)).

Lemma complete_order_missing_order now oid db :
  orders db !! oid = None →
  complete_order now oid db
  = (db, (false, "Error transacción: La venta/pedido no existe.", [])).
Proof.
  intros Ho. apply (complete_order_Raise _ _ _ (ValueError _)).
  unfold _complete_order_atomic. by rewrite Ho.
Qed.

Lemma complete_order_true_inv now oid db db' msg alerts :
  complete_order now oid db = (db', (true, msg, alerts)) →
  ∃ o us, orders db !! oid = Some o
    ∧ mapM (line_update db) (lines_of o) = Some us
    ∧ commit (completed_txn now oid us) db = Ok db'
    ∧ alerts = alerts_of completed_alert us.
Proof.
  intros Hc. destruct (orders db !! oid) as [o|] eqn:Ho.
  - destruct (mapM (line_update db) (lines_of o)) as [us|] eqn:Hm.
    + destruct (complete_order_Ok now oid db o us Ho Hm) as (db1 & Hc1 & Hcommit).
      rewrite Hc1 in Hc. injection Hc as <- <- <-. by exists o, us.
    + destruct (_complete_order_atomic_Raise now oid db o Ho Hm) as [e He].
      rewrite (complete_order_Raise _ _ _ _ He) in Hc. discriminate.
  - rewrite complete_order_missing_order in Hc by done. discriminate.
Qed.

(** C1, as amended. When a line of the order asks for more than the
    inventory holds of its item, [complete_order] returns [ok = false] with
    no alerts and leaves the store as it was: every inventory document,
    every history and every order. The message is the one of insufficient
    stock, naming the line and the quantity available, when that line is the
    first one that cannot be served and every line before it is in stock;
    when the first line that cannot be served names an item that has no
    document, the message is the one of the missing product. *)
Theorem complete_order_insufficient_stock now oid db o :
  orders db !! oid = Some o →
  Exists (short db) (lines_of o) →
  ∃ msg, complete_order now oid db = (db, (false, msg, []))
    ∧ (∀ pre ing post,
         lines_of o = pre ++ ing :: post →
         Forall (in_stock db) pre →
         short db ing →
         msg = "Error transacción: Stock insuficiente para '"
               +:+ fmt_name (li_name ing) +:+ "'. Disponible: "
               +:+ fmt_int (quantity_of db (li_id ing)))
    ∧ (∀ pre ing post,
         lines_of o = pre ++ ing :: post →
         Forall (in_stock db) pre →
         inventory db !! li_id ing = None →
         msg = "Error transacción: Producto '" +:+ fmt_name (li_name ing)
               +:+ "' ya no existe en inventario.").
Proof.
  intros Ho Hshort.
  assert (mapM (line_update db) (lines_of o) = None) as Hm.
  { apply mapM_None_2. eapply Exists_impl; [exact Hshort|].
    intros ing. apply short_line_update. }
  destruct (_complete_order_atomic_Raise now oid db o Ho Hm) as [e He].
  exists ("Error transacción: " +:+ str_exn e).
  split; [by apply complete_order_Raise|].
  unfold _complete_order_atomic in He. rewrite Ho in He.
  fold (lines_of o) in He.
  split; intros pre ing post Hlines [us Hpre]%in_stock_mapM.
  - intros (d & Hd & Hlt). rewrite Hlines in He.
    rewrite (check_ingredients_short db pre ing post us d Hpre Hd Hlt) in He.
    injection He as <-. by rewrite (quantity_of_lookup db _ d).
  - intros Hd. rewrite Hlines in He.
    rewrite (check_ingredients_missing db pre ing post us Hpre Hd) in He.
    by injection He as <-.
Qed.

Lemma item_writes_no_order now ty det ups : ∀ tick,
  Forall (λ w, order_write w = false) (item_writes now ty det tick ups).
Proof. induction ups as [|u ups IH]; intros tick; simpl; auto. Qed.

Lemma check_ingredients_inventory db1 db2 ings :
  inventory db1 = inventory db2 →
  ∀ acc, check_ingredients db1 ings acc = check_ingredients db2 ings acc.
Proof.
  intros Hinv. induction ings as [|ing ings IH]; intros acc; simpl; [done|].
  rewrite Hinv. destruct (inventory db2 !! li_id ing); [|done].
  destruct (_ <? _); [done|apply IH].
Qed.

End CompleteOrder.

Section CompleteOrderClaims.
Context {price : Type} `{Money price}.
Implicit Types (db : store price) (ing : line_item price) (o : order_data price).
Implicit Types (u : item_update price) (ups us : list (item_update price)).
Implicit Types (ings pre post lines : list (line_item price)).
Implicit Types (ws : list (write price)).

Lemma apply_write_same_stock (w : write price) db1 db2 :
  same_stock db1 db2 →
  match apply_write w db1, apply_write w db2 with
  | Ok a, Ok b => same_stock a b
  | Raise e1, Raise e2 => e1 = e2
  | _, _ => False
  end.
Proof.
  intros (Hi & Hh & Ho). destruct w as [item q|item h|order t|order o]; simpl.
  - rewrite <- Hi. destruct (inventory db1 !! item); [|done].
    split_and!; simpl; [by rewrite Hi|done..].
  - split_and!; simpl; [done| |done].
    unfold history_of. by rewrite Hh.
  - pose proof (Ho order) as Hk.
    destruct (orders db1 !! order) as [o1|], (orders db2 !! order) as [o2|].
    + split_and!; simpl; [done..|]. intros k. rewrite !lookup_insert.
      destruct (decide (order = k)); [by split; eauto|apply Ho].
    + destruct Hk as [Hk _]. by destruct Hk; eauto.
    + destruct Hk as [_ Hk]. by destruct Hk; eauto.
    + done.
  - split_and!; simpl; [done..|]. intros k. rewrite !lookup_insert.
    destruct (decide (order = k)); [by split; eauto|apply Ho].
Qed.

Lemma commit_same_stock ws : ∀ db1 db2,
  same_stock db1 db2 →
  match commit ws db1, commit ws db2 with
  | Ok a, Ok b => same_stock a b
  | Raise e1, Raise e2 => e1 = e2
  | _, _ => False
  end.
Proof.
  induction ws as [|w ws IH]; intros db1 db2 Hs; simpl; [done|].
  pose proof (apply_write_same_stock w db1 db2 Hs) as Hw.
  destruct (apply_write w db1) as [a|e1], (apply_write w db2) as [b|e2];
    simpl; try done.
  by apply IH.
Qed.

(** C2, as amended. [complete_order] does not read the status of the order:
    called on two stores that differ in the status of that order only, it
    returns the same triple and leaves the same inventory and the same
    histories. An order that is already completed is therefore served like
    one in process: when every line is in stock the call succeeds, and the
    stock goes down and the histories grow once more. *)
Theorem complete_order_ignores_status now oid o (s1 s2 : option string) db :
  let r1 := complete_order now oid (put_order oid (with_status s1 o) db) in
  let r2 := complete_order now oid (put_order oid (with_status s2 o) db) in
  r1.2 = r2.2 ∧ inventory r1.1 = inventory r2.1 ∧ history r1.1 = history r2.1.
Proof.
  set (db1 := put_order oid (with_status s1 o) db).
  set (db2 := put_order oid (with_status s2 o) db).
  assert (same_stock db1 db2) as Hs.
  { split_and!; [done..|]. intros k. simpl. rewrite !lookup_insert.
    destruct (decide (oid = k)); [by split; eauto|done]. }
  assert (_complete_order_atomic now oid db1 = _complete_order_atomic now oid db2)
    as Hat.
  { unfold _complete_order_atomic. simpl. rewrite !lookup_insert_eq. simpl.
    by rewrite (check_ingredients_inventory db1 db2). }
  simpl. unfold complete_order, transactional. rewrite Hat.
  destruct (_complete_order_atomic now oid db2) as [[ret txn]|e]; [|done].
  pose proof (commit_same_stock txn db1 db2 Hs) as Hc.
  destruct (commit txn db1) as [a|e1], (commit txn db2) as [b|e2]; try done.
  - by destruct Hc as (? & ? & _).
  - by subst.
Qed.

(** A call on an order all of whose lines are in stock succeeds. *)
Lemma complete_order_valid now oid db o :
  orders db !! oid = Some o →
  Forall (in_stock db) (lines_of o) →
  ∃ db' alerts,
    complete_order now oid db
    = (db', (true, "Venta '" +:+ fmt_name (title o)
                    +:+ "' finalizada correctamente.", alerts)).
Proof.
  intros Ho [us Hm]%in_stock_mapM.
  destruct (complete_order_Ok now oid db o us Ho Hm) as (db' & Hc & _).
  by exists db', (alerts_of completed_alert us).
Qed.

Lemma filter_order_write_completed now oid us :
  filter (λ w, order_write w = true) (completed_txn (price:=price) now oid us)
  = [UpdateCompleted oid (now (length us))].
Proof.
  unfold completed_txn. rewrite filter_app, filter_none; [done|].
  eapply Forall_impl; [apply item_writes_no_order|].
  intros w Hw. by rewrite Hw.
Qed.

(** C7. A call of [complete_order] that succeeds has found every line in
    stock; it appends to the histories one entry for each line, in the
    history of the line's item, and their [quantity_change] sum to minus the
    quantities requested; its transaction writes the order once, setting
    [status] to [completed] and [completed_at]; the quantity of an item is
    what it was less the quantity of the last line naming it, and is not
    negative: a line that requests all there is, and after which no line
    names the item again, leaves [0]. Conversely, a call on an order all of
    whose lines request at most what there is succeeds, so that requesting
    exactly what there is is valid. *)
Theorem complete_order_completes now oid db :
  (∀ o, orders db !! oid = Some o →
        Forall (in_stock db) (lines_of o) →
        ∃ db' msg alerts, complete_order now oid db = (db', (true, msg, alerts)))
  ∧ (∀ db' msg alerts,
       complete_order now oid db = (db', (true, msg, alerts)) →
       ∃ o, orders db !! oid = Some o
         ∧ Forall (in_stock db) (lines_of o)
         ∧ (let entries := line_entries now "Venta Completada"
                             ("Venta ID: " +:+ oid) 0 (lines_of o) in
            (∀ i, (history_of db' i).*2
                  = (history_of db i).*2 ++ (filter (λ e, e.1 = i) entries).*2)
            ∧ sum_changes entries.*2 = - requested (lines_of o))
         ∧ (∃ o', orders db' !! oid = Some o'
               ∧ status o' = Some "completed"
               ∧ completed_at o' = Some (now (length (lines_of o))))
         ∧ (∃ ret txn, _complete_order_atomic now oid db = Ok (ret, txn)
               ∧ filter (λ w, order_write w = true) txn
                 = [UpdateCompleted oid (now (length (lines_of o)))])
         ∧ (∀ pre ing post,
              lines_of o = pre ++ ing :: post →
              li_id ing ∉ li_id <$> post →
              quantity_of db' (li_id ing)
              = quantity_of db (li_id ing) - li_quantity ing
              ∧ 0 ≤ quantity_of db' (li_id ing)
              ∧ (li_quantity ing = quantity_of db (li_id ing) →
                 quantity_of db' (li_id ing) = 0))).
Proof.
  split.
  { intros o Ho Hall.
    destruct (complete_order_valid now oid db o Ho Hall) as (db' & al & Hc).
    eauto. }
  intros db' msg alerts (o & us & Ho & Hm & Hcommit & ->)%complete_order_true_inv.
  destruct (commit_completed_txn now oid db o us Ho
              (mapM_line_update_exists _ _ _ Hm))
    as (db1 & Hc1 & Hord & Hinv & Hhist & _).
  rewrite Hcommit in Hc1. injection Hc1 as <-.
  assert (length us = length (lines_of o)) as Hlen
    by (symmetry; by apply (length_mapM (line_update db))).
  exists o. cbv zeta. split_and!.
  - done.
  - apply in_stock_mapM. eauto.
  - intros i. rewrite Hhist. f_equal. by apply (new_entries_lines _ _ _ _ db).
  - apply sum_line_entries.
  - exists (set_completed (now (length us)) o). rewrite Hord, lookup_insert_eq.
    by rewrite Hlen.
  - eexists _, _. split; [by apply _complete_order_atomic_Ok|].
    by rewrite filter_order_write_completed, Hlen.
  - intros pre ing post Hlines Hlast. rewrite Hlines in Hm.
    destruct (last_update_line db pre ing post us Hm Hlast) as (d & Hd & Hq & Hu).
    assert (quantity_of db' (li_id ing) = get (quantity d) 0 - li_quantity ing) as Hnew.
    { unfold quantity_of. by rewrite Hinv, Hu, Hd. }
    rewrite Hnew, (quantity_of_lookup db _ d Hd). lia.
Qed.

End CompleteOrderClaims.

(** ** [process_direct_sale] *)

Section DirectSale.
Context {price : Type} `{Money price}.
Implicit Types (db : store price) (ing it : line_item price) (o : order_data price).
Implicit Types (u : item_update price) (ups us : list (item_update price)).
Implicit Types (ings pre post lines items : list (line_item price)).
Implicit Types (ws : list (write price)) (pay : payment).

Lemma check_sold_items_Ok db items us :
  mapM (line_update db) items = Some us →
  ∀ acc enr total,
    check_sold_items db items acc enr total
    = Ok (acc ++ us, enr ++ (enrich db <$> items), sale_total db items total).
Proof.
  revert us. induction items as [|it items IH]; intros us Hm acc enr total.
  - injection Hm as <-. by rewrite !app_nil_r.
  - apply mapM_line_update_cons in Hm as (d & us' & Hd & _ & Hlt & Hus & ->).
    simpl. rewrite Hd, Hlt, (IH us' Hus), <- !app_assoc. simpl.
    unfold enrich at 2, store_sale_price, store_purchase_price. rewrite Hd.
    done.
Qed.

Lemma check_sold_items_unserved db pre it post us :
  mapM (line_update db) pre = Some us →
  line_update db it = None →
  ∃ e, ∀ acc enr total,
    check_sold_items db (pre ++ it :: post) acc enr total = Raise e.
Proof.
  intros Hm Hit.
  exists (match inventory db !! li_id it with
          | None => ValueError ("Producto '" +:+ fmt_name (li_name it)
                                +:+ "' no encontrado en BD.")
          | Some _ => ValueError ("Stock insuficiente para '"
                                  +:+ fmt_name (li_name it) +:+ "'.")
          end).
  revert us Hm.
  induction pre as [|p pre IH]; intros us Hm acc enr total; simpl.
  - unfold line_update in Hit.
    destruct (inventory db !! li_id it) as [d|]; [|done]. simpl in Hit.
    by destruct (_ <? _).
  - apply mapM_line_update_cons in Hm as (d & us' & Hp & _ & Hlt & Hus & ->).
    rewrite Hp, Hlt. by apply (IH us').
Qed.

Lemma check_sold_items_Raise db items :
  mapM (line_update db) items = None →
  ∃ e, ∀ acc enr total, check_sold_items db items acc enr total = Raise e.
Proof.
  intros (pre & it & post & us & -> & Hpre & Hit)%first_unserved.
  by eapply check_sold_items_unserved.
Qed.

Lemma _process_direct_sale_atomic_Ok now items sale_id pay db us :
  mapM (line_update db) items = Some us →
  _process_direct_sale_atomic now items sale_id pay db
  = Ok ((true, "Venta registrada. Total: $"
                +:+ fmt_price (sale_total db items zero_price),
         alerts_of direct_alert us),
        sale_txn db now items sale_id pay us).
Proof.
  intros Hm. unfold _process_direct_sale_atomic.
  rewrite (check_sold_items_Ok _ _ _ Hm). simpl.
  rewrite stage_updates_eq. simpl.
  unfold sale_txn, sale_order. by rewrite (length_mapM _ _ _ Hm).
Qed.

Lemma commit_sale_txn now items sale_id pay db us :
  Forall (λ u, is_Some (inventory db !! ref u)) us →
  ∃ db', commit (sale_txn db now items sale_id pay us) db = Ok db'
    ∧ orders db' = <[sale_id := sale_order db now items sale_id pay]> (orders db)
    ∧ (∀ i, inventory db' !! i
            = match last_update i us with
              | Some u => set_quantity (new_quantity u) <$> inventory db !! i
              | None => inventory db !! i
              end)
    ∧ (∀ i, (history_of db' i).*2
            = (history_of db i).*2
              ++ new_entries now "Venta Directa" ("ID Venta: " +:+ sale_id) 0 i us)
    ∧ (∀ i, NoDup (history_of db i).*1 → NoDup (history_of db' i).*1).
Proof.
  intros Hall.
  destruct (commit_item_writes now "Venta Directa" ("ID Venta: " +:+ sale_id)
              us 0%nat db Hall) as (db1 & Hc & Ho1 & Hi & Hh & Hn).
  unfold sale_txn. rewrite commit_app, Hc. simpl.
  eexists. split_and!; [done|simpl; congruence|done..].
Qed.

Lemma process_direct_sale_Ok now items sale_id payment_data db us :
  mapM (line_update db) items = Some us →
  ∃ db', process_direct_sale now items sale_id payment_data db
         = (db', (true, "Venta registrada. Total: $"
                         +:+ fmt_price (sale_total db items zero_price),
                  alerts_of direct_alert us))
    ∧ commit (sale_txn db now items sale_id
                (payment_or_default payment_data) us) db = Ok db'.
Proof.
  intros Hm.
  destruct (commit_sale_txn now items sale_id (payment_or_default payment_data)
              db us (mapM_line_update_exists _ _ _ Hm)) as (db' & Hc & _).
  exists db'. split; [|done].
  unfold process_direct_sale, transactional.
  fold (payment_or_default payment_data).
  by rewrite (_process_direct_sale_atomic_Ok _ _ _ _ _ _ Hm), Hc.
Qed.

Lemma process_direct_sale_Raise now items sale_id payment_data db :
  mapM (line_update db) items = None →
  ∃ e, process_direct_sale now items sale_id payment_data db
       = (db, (false, "Error al procesar venta: " +:+ str_exn e, [])).
Proof.
  intros [e He]%check_sold_items_Raise. exists e.
  unfold process_direct_sale, transactional, _process_direct_sale_atomic.
  by rewrite He.
Qed.

Lemma process_direct_sale_true_inv now items sale_id payment_data db db' msg alerts :
  process_direct_sale now items sale_id payment_data db = (db', (true, msg, alerts)) →
  ∃ us, mapM (line_update db) items = Some us
    ∧ commit (sale_txn db now items sale_id
                (payment_or_default payment_data) us) db = Ok db'
    ∧ alerts = alerts_of direct_alert us.
Proof.
  intros Hc. destruct (mapM (line_update db) items) as [us|] eqn:Hm.
  - destruct (process_direct_sale_Ok now items sale_id payment_data db us Hm)
      as (db1 & Hc1 & Hcommit).
    rewrite Hc1 in Hc. injection Hc as <- <- <-. by exists us.
  - destruct (process_direct_sale_Raise now items sale_id payment_data db Hm)
      as [e He].
    rewrite He in Hc. discriminate.
Qed.

End DirectSale.

Section DirectSaleClaims.
Context {price : Type} `{Money price}.
Implicit Types (db : store price) (ing it : line_item price) (o : order_data price).
Implicit Types (u : item_update price) (ups us : list (item_update price)).
Implicit Types (ings pre post lines items : list (line_item price)).
Implicit Types (ws : list (write price)) (pay : payment).

Lemma check_sold_items_same_request db items items' :
  Forall2 same_request items items' →
  ∀ acc enr total,
    check_sold_items db items' acc enr total
    = check_sold_items db items acc enr total.
Proof.
  induction 1 as [|a b items items' (Hid & Hname & Hq) _ IH];
    intros acc enr total; simpl; [done|].
  rewrite <- Hid, <- Hname, <- Hq.
  destruct (inventory db !! li_id a); [|done].
  destruct (_ <? _); [done|apply IH].
Qed.

Lemma process_direct_sale_same_request now items items' sale_id payment_data db :
  Forall2 same_request items items' →
  process_direct_sale now items' sale_id payment_data db
  = process_direct_sale now items sale_id payment_data db.
Proof.
  intros Hsame.
  unfold process_direct_sale, transactional, _process_direct_sale_atomic.
  by rewrite (check_sold_items_same_request db items items' Hsame).
Qed.

(** C5. The order that a successful direct sale creates has for [price] the
    sum, over the lines given and in their order, of the store's sale price
    of the item times the quantity requested, and for lines the lines given
    with the store's name, sale price and purchase price. The prices that
    the caller attached to the lines play no part: a call with other prices
    on the same lines does the same. *)
Theorem direct_sale_prices now items sale_id payment_data db db' msg alerts :
  process_direct_sale now items sale_id payment_data db = (db', (true, msg, alerts)) →
  (∃ o, orders db' !! sale_id = Some o
      ∧ o_price o = Some (sale_total db items zero_price)
      ∧ ingredients o = Some (enrich db <$> items))
  ∧ (∀ items', Forall2 same_request items items' →
       process_direct_sale now items' sale_id payment_data db
       = (db', (true, msg, alerts))).
Proof.
  intros Hc. split.
  - apply process_direct_sale_true_inv in Hc as (us & Hm & Hcommit & _).
    destruct (commit_sale_txn now items sale_id (payment_or_default payment_data)
                db us (mapM_line_update_exists _ _ _ Hm))
      as (db1 & Hc1 & Hord & _).
    rewrite Hcommit in Hc1. injection Hc1 as <-.
    eexists. rewrite Hord, lookup_insert_eq. done.
  - intros items' Hsame.
    by rewrite (process_direct_sale_same_request _ items items').
Qed.


Lemma low_stock_alert_condition msa nq :
  low_stock msa nq = true ↔ alert_condition msa nq.
Proof.
  unfold low_stock, alert_condition, truthy. destruct msa as [m|]; simpl.
  - rewrite !andb_true_iff, negb_true_iff, Z.eqb_neq, Z.ltb_lt, Z.leb_le.
    split.
    + intros (? & ? & ?). exists m. split_and!; [done..|lia].
    + intros (m' & [= <-] & ? & ? & ?). lia.
  - split; [done|]. by intros (m & ? & _).
Qed.

Lemma alerts_of_condition (alert : item_update price → string) us :
  alerts_of alert us
  = alert <$> filter (λ u, alert_condition (min_stock_alert (upd_item_data u))
                                           (new_quantity u)) us.
Proof.
  unfold alerts_of. f_equal. apply list_filter_iff.
  intros u. apply low_stock_alert_condition.
Qed.

Lemma mapM_update_of_line db lines us :
  mapM (line_update db) lines = Some us → Forall2 (update_of_line db) lines us.
Proof.
  rewrite mapM_Some. intros Hm. eapply Forall2_impl; [exact Hm|].
  intros ing u (d & Hd & _ & ->)%line_update_Some. unfold update_of_line. simpl.
  by rewrite (quantity_of_lookup db _ d Hd).
Qed.

Lemma last_updates_report db db' lines us :
  mapM (line_update db) lines = Some us →
  (∀ i, inventory db' !! i
        = match last_update i us with
          | Some u => set_quantity (new_quantity u) <$> inventory db !! i
          | None => inventory db !! i
          end) →
  reports_new_quantity db' lines us.
Proof.
  intros Hm Hinv pre ing post u -> Hlast Hu.
  destruct (last_update_line db pre ing post us Hm Hlast) as (d & Hd & _ & Hl).
  apply mapM_app_inv in Hm as (us1 & us2' & -> & H1 & H2).
  apply mapM_line_update_cons in H2 as (d' & us2 & Hd' & _ & _ & _ & ->).
  assert (d' = d) as -> by congruence.
  assert (length us1 = length pre) as Hlen
    by (symmetry; by apply (length_mapM (line_update db))).
  rewrite <- Hlen, list_lookup_middle in Hu by done. injection Hu as <-.
  unfold quantity_of, threshold_of. by rewrite Hinv, Hl, Hd.
Qed.

(** C6. The test that both operations make before they emit an alert holds
    exactly when [0 < newQuantity ≤ minStockAlert] and [minStockAlert > 0];
    it fails for a new quantity of [0] and for a threshold that is [0] or
    absent. A call of [complete_order] or of [process_direct_sale] on lines
    that are all in stock succeeds, and the alerts it returns are the
    messages of exactly those lines, in their order, for which the test
    holds of the threshold of the item and of the quantity that the line
    leaves, the quantity at the start less its own. For a line that is the
    last to name its item, so for every line when no item is named twice,
    these are the threshold and the quantity that the item has after the
    call. A call on lines that are not all in stock returns no alert. *)
Theorem low_stock_alert_iff now db lines :
  (∀ msa nq, low_stock msa nq = true ↔ alert_condition msa nq)
  ∧ (∀ msa nq, low_stock msa 0 = false ∧ low_stock (Some 0) nq = false
               ∧ low_stock None nq = false)
  ∧ (Forall (in_stock db) lines →
     ∃ us,
       Forall2 (update_of_line db) lines us
       ∧ (∀ oid o,
            orders db !! oid = Some o → lines_of o = lines →
            ∃ db' msg,
              complete_order now oid db
              = (db', (true, msg,
                       completed_alert
                       <$> filter (λ u, alert_condition
                                          (min_stock_alert (upd_item_data u))
                                          (new_quantity u)) us))
              ∧ reports_new_quantity db' lines us)
       ∧ (∀ sale_id payment_data,
            ∃ db' msg,
              process_direct_sale now lines sale_id payment_data db
              = (db', (true, msg,
                       direct_alert
                       <$> filter (λ u, alert_condition
                                          (min_stock_alert (upd_item_data u))
                                          (new_quantity u)) us))
              ∧ reports_new_quantity db' lines us))
  ∧ (¬ Forall (in_stock db) lines →
     (∀ oid o,
        orders db !! oid = Some o → lines_of o = lines →
        ∃ msg, complete_order now oid db = (db, (false, msg, [])))
     ∧ (∀ sale_id payment_data,
          ∃ msg, process_direct_sale now lines sale_id payment_data db
                 = (db, (false, msg, [])))).
Proof.
  split_and!.
  - apply low_stock_alert_condition.
  - intros msa nq. split_and!.
    + unfold low_stock. destruct msa; simpl; [|done]. apply andb_false_r.
    + unfold low_stock. simpl. done.
    + done.
  - intros [us Hm]%in_stock_mapM. exists us. split_and!.
    + by apply mapM_update_of_line.
    + intros oid o Ho <-.
      destruct (complete_order_Ok now oid db o us Ho Hm) as (db' & Hc & Hcommit).
      destruct (commit_completed_txn now oid db o us Ho
                  (mapM_line_update_exists _ _ _ Hm))
        as (db1 & Hc1 & _ & Hinv & _).
      rewrite Hcommit in Hc1. injection Hc1 as <-.
      exists db'. eexists. split.
      * by rewrite Hc, alerts_of_condition.
      * by apply (last_updates_report db).
    + intros sale_id payment_data.
      destruct (process_direct_sale_Ok now lines sale_id payment_data db us Hm)
        as (db' & Hc & Hcommit).
      destruct (commit_sale_txn now lines sale_id
                  (payment_or_default payment_data) db us
                  (mapM_line_update_exists _ _ _ Hm))
        as (db1 & Hc1 & _ & Hinv & _).
      rewrite Hcommit in Hc1. injection Hc1 as <-.
      exists db'. eexists. split.
      * by rewrite Hc, alerts_of_condition.
      * by apply (last_updates_report db).
  - intros Hnot.
    assert (mapM (line_update db) lines = None) as Hm.
    { destruct (mapM (line_update db) lines) as [us|] eqn:Hm; [|done].
      destruct Hnot. apply in_stock_mapM. by rewrite Hm. }
    split.
    + intros oid o Ho <-.
      destruct (_complete_order_atomic_Raise now oid db o Ho Hm) as [e He].
      eexists. by apply complete_order_Raise.
    + intros sale_id payment_data.
      destruct (process_direct_sale_Raise now lines sale_id payment_data db Hm)
        as [e He].
      eauto.
Qed.

End DirectSaleClaims.

(** ** History and quantity *)

Section Invariant.
Context {price : Type} `{Money price}.
Implicit Types (db : store price) (ing it : line_item price) (o : order_data price).
Implicit Types (u : item_update price) (ups us : list (item_update price)).
Implicit Types (ings pre post lines items : list (line_item price)).

Lemma new_entries_absent now ty det i us : ∀ tick,
  i ∉ ref <$> us → new_entries now ty det tick i us = [].
Proof.
  induction us as [|u us IH]; intros tick Hi; simpl; [done|].
  rewrite fmap_cons in Hi. apply not_elem_of_cons in Hi as [Hne Hi].
  rewrite decide_False by done. by apply IH.
Qed.

(** With lines of different items, what the entries staged for an item sum
    to is what its staged update changes in its quantity. *)
Lemma names_once_absent i lines :
  filter (λ l : line_item price, li_id l = i) lines = [] → i ∉ li_id <$> lines.
Proof.
  intros Hnone (l & -> & Hl)%list_elem_of_fmap.
  by apply (filter_nil_not_elem_of _ _ l) in Hnone.
Qed.

(** When the lines name an item once at most, what the entries staged for
    it sum to is what its staged update changes in its quantity. *)
Lemma staged_delta now ty det db i lines : ∀ us tick,
  mapM (line_update db) lines = Some us →
  names_once i lines →
  sum_changes (new_entries now ty det tick i us)
  = get ((match last_update i us with
          | Some u => set_quantity (new_quantity u) <$> inventory db !! i
          | None => inventory db !! i
          end) ≫= quantity) 0
    - quantity_of db i.
Proof.
  unfold names_once.
  induction lines as [|ing lines IH]; intros us tick Hm Honce.
  - injection Hm as <-. unfold quantity_of. simpl. lia.
  - apply mapM_line_update_cons in Hm as (d & us' & Hd & _ & _ & Hus & ->).
    rewrite filter_cons in Honce. rewrite last_update_cons. simpl.
    destruct (decide (li_id ing = i)) as [<-|Hne].
    + assert (li_id ing ∉ ref <$> us') as Habs.
      { rewrite (mapM_refs db lines us' Hus). apply names_once_absent.
        apply nil_length_inv. simpl in Honce. lia. }
      rewrite (new_entries_absent _ _ _ _ _ _ Habs), (last_update_absent _ _ Habs).
      unfold quantity_of. rewrite Hd. simpl. lia.
    + simpl. rewrite (IH us' (S tick) Hus Honce).
      by destruct (last_update i us').
Qed.

Lemma ledger_delta now ty det db db' i lines us :
  mapM (line_update db) lines = Some us →
  names_once i lines →
  inventory db' !! i
  = match last_update i us with
    | Some u => set_quantity (new_quantity u) <$> inventory db !! i
    | None => inventory db !! i
    end →
  (history_of db' i).*2 = (history_of db i).*2 ++ new_entries now ty det 0 i us →
  history_sum db' i - history_sum db i = quantity_of db' i - quantity_of db i.
Proof.
  intros Hm Honce Hinv Hhist. unfold history_sum.
  rewrite Hhist, sum_changes_app, (staged_delta now ty det db i lines us 0 Hm Honce).
  unfold quantity_of at 2. rewrite Hinv. lia.
Qed.

Lemma run_op_delta i (o : op price) db :
  keeps_step i o db →
  history_sum (run_op o db) i - history_sum db i
  = quantity_of (run_op o db) i - quantity_of db i.
Proof.
  destruct o as [now data custom_id is_new details_ | now oid
                | now items sale_id payment_data]; simpl; intros Hstep.
  - unfold history_sum, quantity_of. rewrite history_of_add_history.
    rewrite decide_False by done. simpl. rewrite lookup_insert_ne by done.
    unfold history_of. simpl. lia.
  - destruct (orders db !! oid) as [od|] eqn:Ho.
    + destruct (mapM (line_update db) (lines_of od)) as [us|] eqn:Hm.
      * destruct (complete_order_Ok now oid db od us Ho Hm) as (db' & -> & Hc).
        destruct (commit_completed_txn now oid db od us Ho
                    (mapM_line_update_exists _ _ _ Hm))
          as (db1 & Hc1 & _ & Hinv & Hhist & _).
        rewrite Hc in Hc1. injection Hc1 as <-. simpl.
        by eapply ledger_delta; eauto.
      * destruct (_complete_order_atomic_Raise now oid db od Ho Hm) as [e He].
        rewrite (complete_order_Raise _ _ _ _ He). simpl. lia.
    + rewrite complete_order_missing_order by done. simpl. lia.
  - destruct (mapM (line_update db) items) as [us|] eqn:Hm.
    + destruct (process_direct_sale_Ok now items sale_id payment_data db us Hm)
        as (db' & -> & Hc).
      destruct (commit_sale_txn now items sale_id
                  (payment_or_default payment_data) db us
                  (mapM_line_update_exists _ _ _ Hm))
        as (db1 & Hc1 & _ & Hinv & Hhist & _).
      rewrite Hc in Hc1. injection Hc1 as <-. simpl.
      by eapply ledger_delta; eauto.
    + destruct (process_direct_sale_Raise now items sale_id payment_data db Hm)
        as [e ->].
      simpl. lia.
Qed.

(** C3, as amended. Over a sequence of operations in which no
    [save_inventory_item] is applied to the item and no [complete_order] or
    [process_direct_sale] names it in more than one line, the
    [quantity_change] of the history entries of the item grow by what its
    quantity changes: the entries appended since the start sum to the
    current quantity less the quantity at the start. *)
Theorem ledger_history_matches_quantity item (ops : list (op price)) db :
  ledger_run item ops db →
  history_sum (run ops db) item - history_sum db item
  = quantity_of (run ops db) item - quantity_of db item.
Proof.
  revert db. induction ops as [|o ops IH]; intros db Hrun.
  - unfold run. simpl. lia.
  - destruct Hrun as [Hstep Hrun].
    change (run (o :: ops) db) with (run ops (run_op o db)).
    pose proof (run_op_delta item o db Hstep).
    pose proof (IH (run_op o db) Hrun).
    lia.
Qed.

End Invariant.

(** ** The ids of history documents *)

Section HistoryIds.
Context {price : Type} `{Money price}.
Implicit Types (db : store price).

Lemma run_op_history_ids (o : op price) db :
  (∀ i, NoDup (history_of db i).*1) →
  ∀ i, NoDup (history_of (run_op o db) i).*1.
Proof.
  intros Hnd i.
  destruct o as [now data custom_id is_new details_| now oid
                | now items sale_id payment_data]; simpl.
  - apply add_history_NoDup. apply Hnd.
  - destruct (orders db !! oid) as [od|] eqn:Ho.
    + destruct (mapM (line_update db) (lines_of od)) as [us|] eqn:Hm.
      * destruct (complete_order_Ok now oid db od us Ho Hm) as (db' & -> & Hc).
        destruct (commit_completed_txn now oid db od us Ho
                    (mapM_line_update_exists _ _ _ Hm))
          as (db1 & Hc1 & _ & _ & _ & Hids).
        rewrite Hc in Hc1. injection Hc1 as <-. by apply Hids.
      * destruct (_complete_order_atomic_Raise now oid db od Ho Hm) as [e He].
        rewrite (complete_order_Raise _ _ _ _ He). apply Hnd.
    + rewrite complete_order_missing_order by done. apply Hnd.
  - destruct (mapM (line_update db) items) as [us|] eqn:Hm.
    + destruct (process_direct_sale_Ok now items sale_id payment_data db us Hm)
        as (db' & -> & Hc).
      destruct (commit_sale_txn now items sale_id
                  (payment_or_default payment_data) db us
                  (mapM_line_update_exists _ _ _ Hm))
        as (db1 & Hc1 & _ & _ & _ & Hids).
      rewrite Hc in Hc1. injection Hc1 as <-. by apply Hids.
    + destruct (process_direct_sale_Raise now items sale_id payment_data db Hm)
        as [e ->].
      apply Hnd.
Qed.

(** No operation gives two documents of a history the same id. *)
Lemma run_history_ids (ops : list (op price)) db :
  (∀ i, NoDup (history_of db i).*1) →
  ∀ i, NoDup (history_of (run ops db) i).*1.
Proof.
  revert db. induction ops as [|o ops IH]; intros db Hnd; [done|].
  apply (IH (run_op o db)). by apply run_op_history_ids.
Qed.

End HistoryIds.

(** ** Saving and deleting items *)

Section RepositoryFacts.
Context {price : Type}.
Implicit Types (db : store price) (d data : item_data price).

Lemma firestore_retry_first {W A} (func : W → W * result A) active w w' a :
  func w = (w', Ok a) → firestore_retry func active w = (w', [], Ok a).
Proof. intros Hf. unfold firestore_retry. simpl. by rewrite Hf. Qed.

(** C9, as amended. [save_inventory_item] writes the fields of [data] into
    the document and keeps the fields that [data] does not have, leaves the
    other documents alone, and appends one entry to the history of the item:
    of type [Stock Inicial] for a new item and [Ajuste Manual] otherwise,
    with for [quantity_change] the [quantity] of [data], not a difference.
    That is the quantity of the item after the write when [data] has a
    quantity; when it has none the entry has none either. *)
Theorem save_inventory_item_effect now data custom_id is_new details_ db :
  ∃ db' d h,
    save_inventory_item now data custom_id is_new details_ db = (db', [], Ok ())
    ∧ inventory db' !! custom_id = Some d
    ∧ (let old := inventory db !! custom_id in
       name d = name data ∪ (old ≫= name)
       ∧ quantity d = quantity data ∪ (old ≫= quantity)
       ∧ sale_price d = sale_price data ∪ (old ≫= sale_price)
       ∧ purchase_price d = purchase_price data ∪ (old ≫= purchase_price)
       ∧ min_stock_alert d = min_stock_alert data ∪ (old ≫= min_stock_alert)
       ∧ updated_at d = updated_at data ∪ (old ≫= updated_at))
    ∧ (∀ k, k ≠ custom_id →
         inventory db' !! k = inventory db !! k
         ∧ history_of db' k = history_of db k)
    ∧ history_of db' custom_id
      = history_of db custom_id ++ [(fresh_id (history_of db custom_id), h)]
    ∧ h_type h = (if is_new then "Stock Inicial" else "Ajuste Manual")
    ∧ quantity_change h = quantity data
    ∧ (∀ q, quantity data = Some q → quantity d = Some q).
Proof.
  eexists _, _, _. split_and!.
  - unfold save_inventory_item. by apply firestore_retry_first.
  - simpl. apply lookup_insert_eq.
  - simpl. destruct (inventory db !! custom_id) as [old|]; simpl.
    + by split_and!.
    + by rewrite !(right_id_L None (∪)).
  - intros k Hk. split.
    + simpl. by rewrite lookup_insert_ne.
    + rewrite history_of_add_history. by rewrite decide_False.
  - rewrite history_of_add_history, decide_True by done. done.
  - done.
  - done.
  - intros q Hq. destruct (inventory db !! custom_id) as [old|]; simpl.
    + rewrite Hq. by destruct (quantity old).
    + done.
Qed.

Lemma filter_iff_in {A} (P Q : A → Prop) `{∀ x, Decision (P x)}
    `{∀ x, Decision (Q x)} (l : list A) :
  (∀ x, x ∈ l → P x ↔ Q x) → filter P l = filter Q l.
Proof.
  induction l as [|x l IH]; intros HPQ; [done|].
  rewrite !filter_cons.
  rewrite IH by (intros y Hy; apply HPQ; by right).
  destruct (decide (P x)) as [HP|HP], (decide (Q x)) as [HQ|HQ]; try done.
  - destruct HQ. apply HPQ; [by left|done].
  - destruct HP. apply HPQ; [by left|done].
Qed.

Lemma filter_all {A} (P : A → Prop) `{∀ x, Decision (P x)} (l : list A) :
  Forall P l → filter P l = l.
Proof.
  induction 1 as [|x l Hx _ IH]; [done|].
  by rewrite filter_cons_True, IH.
Qed.

Lemma delete_docs_take (coll : collection) : ∀ n,
  NoDup coll.*1 →
  filter (λ x, x.1 ∉ (take n coll).*1) coll = drop n coll.
Proof.
  induction coll as [|x coll IH]; intros n Hnd.
  - by destruct n.
  - destruct n as [|n]; simpl.
    + apply filter_all, Forall_forall. intros y _. apply not_elem_of_nil.
    + rewrite fmap_cons in Hnd. apply NoDup_cons in Hnd as [Hx Hnd].
      rewrite filter_cons, decide_False.
      2:{ intros Hn. apply Hn. by left. }
      rewrite <- (IH n Hnd). apply filter_iff_in.
      intros y Hy. rewrite not_elem_of_cons. split; [by intros [_ ?]|].
      intros Hn. split; [|done]. intros Heq. apply Hx. rewrite <- Heq.
      apply list_elem_of_fmap. eauto.
Qed.

Lemma history_of_delete_docs db item refs :
  history_of (delete_docs item refs db) item
  = filter (λ x, x.1 ∉ refs) (history_of db item).
Proof. unfold delete_docs, history_of at 1. simpl. by rewrite lookup_insert_eq. Qed.

Lemma NoDup_drop_fst (coll : collection) n :
  NoDup coll.*1 → NoDup (drop n coll).*1.
Proof.
  intros Hnd. rewrite <- (take_drop n coll), fmap_app in Hnd.
  by apply NoDup_app in Hnd as (_ & _ & ?).
Qed.

(** The recursion of [_delete_collection_batch] on a history of
    [batch_size * k + r] documents. *)
Lemma _delete_collection_batch_rec item batch_size :
  (0 < batch_size)%nat →
  ∀ k r depth db reqs,
    length (history_of db item) = (batch_size * k + r)%nat →
    (r < batch_size)%nat →
    NoDup (history_of db item).*1 →
    (k < depth)%nat →
    ∃ db' reqs',
      _delete_collection_batch depth item batch_size db reqs
      = (db', reqs ++ reqs', Ok ())
      ∧ history_of db' item = []
      ∧ inventory db' = inventory db
      ∧ orders db' = orders db
      ∧ length <$> batches reqs'
        = replicate k batch_size ++ (if decide (r = 0%nat) then [] else [r])
      ∧ pages reqs' = replicate k batch_size ++ [r]
      ∧ doc_deletions reqs' = [].
Proof.
  intros Hb. induction k as [|k IH]; intros r depth db reqs Hlen Hr Hnd Hdepth.
  - destruct depth as [|depth]; [lia|]. simpl.
    assert (length (history_of db item) = r) as Hlen' by lia.
    rewrite take_ge by lia. rewrite Hlen'.
    destruct r as [|r].
    + simpl. destruct (Nat.leb_spec batch_size 0); [lia|].
      eexists db, _. split_and!; [done| |done..].
      by apply nil_length_inv.
    + simpl. destruct (Nat.leb_spec batch_size (S r)); [lia|].
      eexists _, _. split_and!.
      * by rewrite <- app_assoc.
      * rewrite history_of_delete_docs. apply filter_none, Forall_forall.
        intros x Hx Hn. apply Hn, list_elem_of_fmap. eauto.
      * done.
      * done.
      * simpl. by rewrite length_fmap, Hlen'.
      * done.
      * done.
  - destruct depth as [|depth]; [lia|]. simpl.
    set (coll := history_of db item) in *.
    assert (length (take batch_size coll) = batch_size) as Htake
      by (rewrite length_take; lia).
    rewrite Htake.
    destruct (Nat.ltb_spec 0 batch_size); [|lia].
    destruct (Nat.leb_spec batch_size batch_size); [|lia].
    set (db1 := delete_docs item (take batch_size coll).*1 db).
    assert (history_of db1 item = drop batch_size coll) as Hh1.
    { unfold db1. rewrite history_of_delete_docs. by apply delete_docs_take. }
    destruct (IH r depth db1
                ((reqs ++ [StreamPage item batch_size batch_size])
                 ++ [CommitBatch item (take batch_size coll).*1]))
      as (db' & reqs' & Hrun & Hempty & Hinv & Hord & Hbat & Hpag & Hdel).
    { rewrite Hh1, length_drop. lia. }
    { done. }
    { rewrite Hh1. by apply NoDup_drop_fst. }
    { lia. }
    exists db', ([StreamPage item batch_size batch_size;
                  CommitBatch item (take batch_size coll).*1] ++ reqs').
    split_and!.
    + rewrite Hrun. by rewrite <- !app_assoc.
    + done.
    + by rewrite Hinv.
    + by rewrite Hord.
    + change (batches _) with ((take batch_size coll).*1 :: batches reqs').
      by rewrite fmap_cons, Hbat, length_fmap, Htake.
    + change (pages _) with (batch_size :: pages reqs'). by rewrite Hpag.
    + done.
Qed.
(** The same recursion when the history has a full page for each of the
    [depth] calls that may nest: every one of them commits its batch and
    the call after them raises. *)
Lemma _delete_collection_batch_overflow item batch_size :
  (0 < batch_size)%nat →
  ∀ depth db reqs,
    (batch_size * depth ≤ length (history_of db item))%nat →
    NoDup (history_of db item).*1 →
    ∃ db' reqs',
      _delete_collection_batch depth item batch_size db reqs
      = (db', reqs ++ reqs', Raise recursion_error)
      ∧ history_of db' item = drop (batch_size * depth) (history_of db item)
      ∧ inventory db' = inventory db
      ∧ orders db' = orders db
      ∧ length <$> batches reqs' = replicate depth batch_size
      ∧ pages reqs' = replicate depth batch_size
      ∧ doc_deletions reqs' = [].
Proof.
  intros Hb. induction depth as [|depth IH]; intros db reqs Hlen Hnd.
  - exists db, []. rewrite app_nil_r, Nat.mul_0_r. by split_and!.
  - simpl. set (coll := history_of db item) in *.
    assert (length (take batch_size coll) = batch_size) as Htake
      by (rewrite length_take; lia).
    rewrite Htake.
    destruct (Nat.ltb_spec 0 batch_size); [|lia].
    destruct (Nat.leb_spec batch_size batch_size); [|lia].
    set (db1 := delete_docs item (take batch_size coll).*1 db).
    assert (history_of db1 item = drop batch_size coll) as Hh1.
    { unfold db1. rewrite history_of_delete_docs. by apply delete_docs_take. }
    destruct (IH db1
                ((reqs ++ [StreamPage item batch_size batch_size])
                 ++ [CommitBatch item (take batch_size coll).*1]))
      as (db' & reqs' & Hrun & Hrest & Hinv & Hord & Hbat & Hpag & Hdel).
    { rewrite Hh1, length_drop. lia. }
    { rewrite Hh1. by apply NoDup_drop_fst. }
    exists db', ([StreamPage item batch_size batch_size;
                  CommitBatch item (take batch_size coll).*1] ++ reqs').
    split_and!.
    + rewrite Hrun. by rewrite <- !app_assoc.
    + rewrite Hrest, Hh1, drop_drop. f_equal. lia.
    + by rewrite Hinv.
    + by rewrite Hord.
    + change (batches _) with ((take batch_size coll).*1 :: batches reqs').
      by rewrite fmap_cons, Hbat, length_fmap, Htake.
    + change (pages _) with (batch_size :: pages reqs'). by rewrite Hpag.
    + done.
Qed.
End RepositoryFacts.

Section DeleteItem.
Context {price : Type}.
Implicit Types (db : store price).

Lemma ceil_div_20 k r :
  (r < 20)%nat →
  ceil_div (20 * k + r) 20 = (k + if decide (r = 0%nat) then 0 else 1)%nat.
Proof.
  intros Hr. unfold ceil_div. symmetry.
  destruct (decide (r = 0%nat)) as [->|Hne].
  - apply (Nat.div_unique _ 20 _ 19); lia.
  - apply (Nat.div_unique _ 20 _ (r - 1)); lia.
Qed.

(** C8. On an item with [n] history documents, what [delete_inventory_item]
    does depends on how deep the interpreter lets the calls of
    [_delete_collection_batch] nest. With room for [n / 20 + 1] calls it
    returns: it streams pages of 20 documents until one has fewer, commits
    [⌈n / 20⌉] batches of deletions, none of more than 20 documents, and
    then deletes the document of the item, once and as its last request;
    after that the item has no history document and no document. With room
    for [depth] calls and [depth ≤ n / 20] it raises [RecursionError]
    instead: [depth] batches of 20 are committed, [n - 20 * depth] history
    documents are left, and the document of the item is never deleted. *)
Theorem delete_inventory_item_batches depth doc_id db :
  let n := length (history_of db doc_id) in
  NoDup (history_of db doc_id).*1 →
  ((n / 20 < depth)%nat →
   ∃ db' reqs,
     delete_inventory_item depth doc_id db
     = (db', reqs ++ [DeleteDocument doc_id], Ok ())
     ∧ doc_deletions reqs = []
     ∧ length (batches reqs) = ceil_div n 20
     ∧ Forall (λ refs, (length refs ≤ 20)%nat) (batches reqs)
     ∧ pages reqs = replicate (n / 20) 20%nat ++ [(n mod 20)%nat]
     ∧ history_of db' doc_id = []
     ∧ inventory db' !! doc_id = None)
  ∧ ((depth ≤ n / 20)%nat →
     ∃ db' reqs,
       delete_inventory_item depth doc_id db
       = (db', reqs, Raise recursion_error)
       ∧ doc_deletions reqs = []
       ∧ length (batches reqs) = depth
       ∧ Forall (λ refs, length refs = 20%nat) (batches reqs)
       ∧ pages reqs = replicate depth 20%nat
       ∧ length (history_of db' doc_id) = (n - 20 * depth)%nat
       ∧ inventory db' = inventory db
       ∧ orders db' = orders db).
Proof.
  intros n Hnd.
  assert (n mod 20 < 20)%nat as Hr by (apply Nat.mod_upper_bound; lia).
  assert (n = 20 * (n / 20) + n mod 20)%nat as Hn by (apply Nat.div_mod_eq).
  split.
  - intros Hdepth.
    destruct (_delete_collection_batch_rec doc_id 20 ltac:(lia) (n / 20)%nat
                (n mod 20)%nat depth db [] Hn Hr Hnd Hdepth)
      as (db' & reqs & Hrun & Hempty & Hinv & Hord & Hbat & Hpag & Hdel).
    clearbody n.
    exists (mk_store (delete doc_id (inventory db')) (history db') (orders db')),
      reqs.
    split_and!.
    + unfold delete_inventory_item. by rewrite Hrun.
    + done.
    + rewrite <- (length_fmap length), Hbat, length_app, length_replicate.
      replace (ceil_div n 20) with (ceil_div (20 * (n / 20) + n mod 20) 20)
        by (f_equal; exact (eq_sym Hn)).
      rewrite ceil_div_20 by done.
      by destruct (decide (n mod 20 = 0)%nat).
    + assert (Forall (λ m, (m ≤ 20)%nat) (length <$> batches reqs)) as Hall.
      { rewrite Hbat. apply Forall_app. split.
        + apply Forall_replicate. lia.
        + destruct (decide (n mod 20 = 0)%nat); [done|].
          apply Forall_singleton. lia. }
      by apply Forall_fmap in Hall.
    + done.
    + done.
    + simpl. apply lookup_delete_eq.
  - intros Hdepth.
    destruct (_delete_collection_batch_overflow doc_id 20 ltac:(lia) depth db []
                ltac:(fold n; lia) Hnd)
      as (db' & reqs & Hrun & Hrest & Hinv & Hord & Hbat & Hpag & Hdel).
    exists db', reqs. split_and!.
    + unfold delete_inventory_item. by rewrite Hrun.
    + done.
    + by rewrite <- (length_fmap length), Hbat, length_replicate.
    + assert (Forall (λ m, m = 20%nat) (length <$> batches reqs)) as Hall
        by (rewrite Hbat; apply Forall_replicate; done).
      by apply Forall_fmap in Hall.
    + done.
    + rewrite Hrest, length_drop. done.
    + done.
    + done.
Qed.

End DeleteItem.

(** ** The retry decorator *)

Section RetryFacts.
Context {W A : Type}.
Implicit Types (func : W → W * result A) (active : option exn).

(** The wrapper calls the function once, twice or three times, one call
    after the other; it sleeps 1, 2 and 4 after the failures; what it raises
    after the third failure is what a bare [raise] raises. *)
Lemma firestore_retry_cases func active w :
  (∃ w1 a, func w = (w1, Ok a)
     ∧ firestore_retry func active w = (w1, [], Ok a))
  ∨ (∃ w1 e1 w2 a, func w = (w1, Raise e1) ∧ func w1 = (w2, Ok a)
       ∧ firestore_retry func active w
         = (w2, [LogWarning 1 e1; Sleep 1], Ok a))
  ∨ (∃ w1 e1 w2 e2 w3 a,
       func w = (w1, Raise e1) ∧ func w1 = (w2, Raise e2)
       ∧ func w2 = (w3, Ok a)
       ∧ firestore_retry func active w
         = (w3, [LogWarning 1 e1; Sleep 1; LogWarning 2 e2; Sleep 2], Ok a))
  ∨ (∃ w1 e1 w2 e2 w3 e3,
       func w = (w1, Raise e1) ∧ func w1 = (w2, Raise e2)
       ∧ func w2 = (w3, Raise e3)
       ∧ firestore_retry func active w
         = (w3, [LogWarning 1 e1; Sleep 1; LogWarning 2 e2; Sleep 2;
                 LogWarning 3 e3; Sleep 4; LogError],
            Raise (bare_raise active))).
Proof.
  unfold firestore_retry. simpl.
  destruct (func w) as [w1 [a|e1]] eqn:H1; [left; eauto|right].
  destruct (func w1) as [w2 [a|e2]] eqn:H2; [left; eauto 10|right].
  destruct (func w2) as [w3 [a|e3]] eqn:H3; [left; eauto 10|right].
  eauto 12.
Qed.

Lemma firestore_retry_raises func active w w' trace e :
  firestore_retry func active w = (w', trace, Raise e) → e = bare_raise active.
Proof.
  destruct (firestore_retry_cases func active w)
    as [(? & ? & _ & ->)|[(? & ? & ? & ? & _ & _ & ->)
       |[(? & ? & ? & ? & ? & ? & _ & _ & _ & ->)
       |(? & ? & ? & ? & ? & ? & _ & _ & _ & ->)]]]; congruence.
Qed.

End RetryFacts.

(** ** The statements on the small shop *)

(** C4. A function wrapped by [firestore_retry] that raises [e] at each call
    is called three times, with sleeps of 1, 2 and 4 after the failures; the
    wrapper then raises, outside any handler, the [RuntimeError] of a bare
    [raise] with no active exception, whatever [e] was. *)
Theorem firestore_retry_loses_error (e : exn) :
  firestore_retry (always_fails e) None 0%nat
  = (3%nat,
     [LogWarning 1 e; Sleep 1; LogWarning 2 e; Sleep 2; LogWarning 3 e; Sleep 4;
      LogError],
     Raise (RuntimeError "No active exception to reraise")).
Proof. reflexivity. Qed.

(** C1 as stated fails on order [o2]: its second line asks for 9 of the 4 in
    stock, yet the message is that of the first line, whose item has no
    document, and not one of insufficient stock. *)
Lemma complete_order_insufficient_stock_counterexample :
  orders shop !! "o2" = Some order_2
  ∧ Exists (short shop) (lines_of order_2)
  ∧ complete_order clock "o2" shop
    = (shop, (false,
              "Error transacción: Producto 'Azucar' ya no existe en inventario.",
              []))
  ∧ ∀ (ing : line_item Z) available,
      (complete_order clock "o2" shop).2.1.2
      ≠ "Error transacción: " +:+ str_exn (stock_error ing available).
Proof.
  split_and!.
  - reflexivity.
  - apply Exists_cons_tl, Exists_cons_hd. exists item_B. split; [reflexivity|].
    vm_compute. reflexivity.
  - vm_compute. reflexivity.
  - intros ing available Heq. vm_compute in Heq. discriminate Heq.
Qed.

Lemma complete_order_insufficient_stock_witness :
  orders shop !! "o3" = Some order_3
  ∧ Exists (short shop) (lines_of order_3)
  ∧ ∃ msg, complete_order clock "o3" shop = (shop, (false, msg, []))
      ∧ (∀ pre ing post,
           lines_of order_3 = pre ++ ing :: post →
           Forall (in_stock shop) pre →
           short shop ing →
           msg = "Error transacción: Stock insuficiente para '"
                 +:+ fmt_name (li_name ing) +:+ "'. Disponible: "
                 +:+ fmt_int (quantity_of shop (li_id ing)))
      ∧ (∀ pre ing post,
           lines_of order_3 = pre ++ ing :: post →
           Forall (in_stock shop) pre →
           inventory shop !! li_id ing = None →
           msg = "Error transacción: Producto '" +:+ fmt_name (li_name ing)
                 +:+ "' ya no existe en inventario.").
Proof.
  assert (Exists (short shop) (lines_of order_3)) as Hshort.
  { apply Exists_cons_tl, Exists_cons_hd. exists item_B. split; [reflexivity|].
    vm_compute. reflexivity. }
  split; [reflexivity|]. split; [exact Hshort|].
  apply (complete_order_insufficient_stock clock "o3" shop order_3);
    [reflexivity|exact Hshort].
Defined.

(** C2 as stated fails on order [o4], which is completed: the call takes 6
    of A from the stock and appends an entry to its history. *)
Lemma complete_order_completed_counterexample :
  (orders shop !! "o4" ≫= status) = Some "completed"
  ∧ (complete_order clock "o4" shop).2.1.1 = true
  ∧ quantity_of shop "A" = 10
  ∧ quantity_of (complete_order clock "o4" shop).1 "A" = 4
  ∧ history_of shop "A" = []
  ∧ (history_of (complete_order clock "o4" shop).1 "A").*2
    = [mk_history 1700000000 "Venta Completada" (Some (-6)) "Venta ID: o4"].
Proof. split_and!; vm_compute; reflexivity. Qed.

(** C3 as stated fails on an item created with 10 in stock and adjusted to
    15: its two entries sum to 25, the quantity is 15, and 25 is neither
    [15 - 10] nor [15 - 0]. *)
Lemma history_invariant_counterexample :
  let db := run create_then_adjust no_documents in
  history_sum db "A" = 25
  ∧ quantity_of db "A" = 15
  ∧ history_sum db "A" ≠ quantity_of db "A" - 10
  ∧ history_sum db "A" ≠ quantity_of db "A" - 0.
Proof. split_and!; vm_compute; congruence. Qed.

Lemma ledger_history_matches_quantity_witness :
  ledger_run "A" complete_then_sell shop
  ∧ history_sum (run complete_then_sell shop) "A" - history_sum shop "A"
    = quantity_of (run complete_then_sell shop) "A" - quantity_of shop "A".
Proof.
  assert (ledger_run "A" complete_then_sell shop) as Hrun.
  { split; [|split; [|split; [|exact I]]].
    - intros od Hod. vm_compute in Hod. injection Hod as <-.
      vm_compute. lia.
    - discriminate.
    - vm_compute. lia. }
  split; [exact Hrun|].
  exact (ledger_history_matches_quantity "A" complete_then_sell shop Hrun).
Defined.

Lemma direct_sale_prices_witness :
  let r := process_direct_sale clock basket "Venta-20240101" None shop in
  r = (r.1, (true, "Venta registrada. Total: $20.00", []))
  ∧ sale_total shop basket zero_price = 20
  ∧ (∃ o, orders r.1 !! "Venta-20240101" = Some o
        ∧ o_price o = Some (sale_total shop basket zero_price)
        ∧ ingredients o = Some (enrich shop <$> basket))
  ∧ (∀ items', Forall2 same_request basket items' →
       process_direct_sale clock items' "Venta-20240101" None shop
       = (r.1, (true, "Venta registrada. Total: $20.00", []))).
Proof.
  intros r.
  assert (r = (r.1, (true, "Venta registrada. Total: $20.00", []))) as Hr
    by (vm_compute; reflexivity).
  split; [exact Hr|]. split; [reflexivity|].
  exact (direct_sale_prices clock basket "Venta-20240101" None shop r.1
           "Venta registrada. Total: $20.00" [] Hr).
Defined.

(** C6 as stated fails on a sale that names A twice, for 9 and for 1 of
    the 10 in stock: the first line alerts on a quantity of 1, and A ends
    at 9, above its threshold of 5. *)
Lemma low_stock_alert_counterexample :
  let r := process_direct_sale clock basket_nine_one "Venta-9" None shop in
  r.2 = (true, "Venta registrada. Total: $50.00", ["'Arroz' bajo stock (1/5)."])
  ∧ quantity_of r.1 "A" = 9
  ∧ threshold_of r.1 "A" = Some 5
  ∧ ¬ alert_condition (threshold_of r.1 "A") (quantity_of r.1 "A").
Proof.
  split_and!; [vm_compute; reflexivity..|].
  vm_compute. intros (m & [= <-] & _ & Hle & _). by apply Hle.
Qed.

Lemma low_stock_alert_iff_witness :
  let lines := [line "A" "Arroz" 6; line "B" "Frijol" 4] in
  let r := process_direct_sale clock lines "Venta-9" None shop in
  Forall (in_stock shop) lines
  ∧ (complete_order clock "o1" shop).2
    = (true, "Venta 'Pedido' finalizada correctamente.",
       ["'Arroz' ha alcanzado el umbral de stock mínimo (4/5)."])
  ∧ r.2 = (true, "Venta registrada. Total: $70.00", ["'Arroz' bajo stock (4/5)."])
  ∧ quantity_of r.1 "A" = 4
  ∧ quantity_of r.1 "B" = 0
  ∧ low_stock (Some 5) 4 = true
  ∧ low_stock (Some 5) 0 = false
  ∧ low_stock None 0 = false
  ∧ ∃ us,
      Forall2 (update_of_line shop) lines us
      ∧ (∀ oid o,
           orders shop !! oid = Some o → lines_of o = lines →
           ∃ db' msg,
             complete_order clock oid shop
             = (db', (true, msg,
                      completed_alert
                      <$> filter (λ u, alert_condition
                                         (min_stock_alert (upd_item_data u))
                                         (new_quantity u)) us))
             ∧ reports_new_quantity db' lines us)
      ∧ (∀ sale_id payment_data,
           ∃ db' msg,
             process_direct_sale clock lines sale_id payment_data shop
             = (db', (true, msg,
                      direct_alert
                      <$> filter (λ u, alert_condition
                                         (min_stock_alert (upd_item_data u))
                                         (new_quantity u)) us))
             ∧ reports_new_quantity db' lines us).
Proof.
  intros lines r.
  assert (Forall (in_stock shop) lines) as Hall.
  { repeat constructor; [exists item_A|exists item_B];
      (split; [reflexivity|vm_compute; discriminate]). }
  split; [exact Hall|].
  do 7 (split; [vm_compute; reflexivity|]).
  exact (proj1 (proj2 (proj2 (low_stock_alert_iff clock shop lines))) Hall).
Defined.

(** C7 as stated fails on the order [o5]: its first line asks for the 10
    of A that there are, the call succeeds, and A ends at 7, what the
    second line leaves, not at 0. *)
Lemma complete_order_boundary_counterexample :
  let r := complete_order clock "o5" shop_with_order_5 in
  orders shop_with_order_5 !! "o5" = Some order_5
  ∧ lines_of order_5 = [line "A" "Arroz" 10; line "A" "Arroz" 3]
  ∧ quantity_of shop_with_order_5 "A" = 10
  ∧ r.2 = (true, "Venta 'Pedido' finalizada correctamente.", [])
  ∧ quantity_of r.1 "A" = 7.
Proof. split_and!; vm_compute; reflexivity. Qed.

Lemma complete_order_completes_witness :
  let r := complete_order clock "o1" shop in
  r.2 = (true, "Venta 'Pedido' finalizada correctamente.",
         ["'Arroz' ha alcanzado el umbral de stock mínimo (4/5)."])
  ∧ quantity_of shop "B" = 4
  ∧ quantity_of r.1 "B" = 0
  ∧ quantity_of r.1 "A" = 4
  ∧ ∃ o, orders shop !! "o1" = Some o
      ∧ Forall (in_stock shop) (lines_of o)
      ∧ (let entries := line_entries clock "Venta Completada"
                          ("Venta ID: " +:+ "o1") 0 (lines_of o) in
         (∀ i, (history_of r.1 i).*2
               = (history_of shop i).*2 ++ (filter (λ e, e.1 = i) entries).*2)
         ∧ sum_changes entries.*2 = - requested (lines_of o))
      ∧ (∃ o', orders r.1 !! "o1" = Some o'
            ∧ status o' = Some "completed"
            ∧ completed_at o' = Some (clock (length (lines_of o))))
      ∧ (∃ ret txn, _complete_order_atomic clock "o1" shop = Ok (ret, txn)
            ∧ filter (λ w, order_write w = true) txn
              = [UpdateCompleted "o1" (clock (length (lines_of o)))])
      ∧ (∀ pre ing post,
           lines_of o = pre ++ ing :: post →
           li_id ing ∉ li_id <$> post →
           quantity_of r.1 (li_id ing)
           = quantity_of shop (li_id ing) - li_quantity ing
           ∧ 0 ≤ quantity_of r.1 (li_id ing)
           ∧ (li_quantity ing = quantity_of shop (li_id ing) →
              quantity_of r.1 (li_id ing) = 0)).
Proof.
  intros r. do 4 (split; [vm_compute; reflexivity|]).
  apply (proj2 (complete_order_completes clock "o1" shop) r.1
           "Venta 'Pedido' finalizada correctamente."
           ["'Arroz' ha alcanzado el umbral de stock mínimo (4/5)."]).
  vm_compute. reflexivity.
Defined.

Lemma history_of_busy_archive n :
  history_of (busy_archive n) "A" = sales_history n.
Proof. unfold history_of, busy_archive. simpl. by rewrite lookup_insert_eq. Qed.

Lemma sales_history_ids n : (sales_history n).*1 = seq 1 n.
Proof.
  unfold sales_history. rewrite <- list_fmap_compose.
  rewrite <- (list_fmap_id (seq 1 n)) at 2. by apply list_fmap_ext.
Qed.

Lemma length_sales_history n : length (sales_history n) = n.
Proof. unfold sales_history. by rewrite length_fmap, length_seq. Qed.

Lemma delete_inventory_item_batches_witness :
  NoDup (history_of archive "A").*1
  ∧ length (history_of archive "A") = 45%nat
  ∧ (∃ db' reqs,
       delete_inventory_item 3 "A" archive
       = (db', reqs ++ [DeleteDocument "A"], Ok ())
       ∧ doc_deletions reqs = []
       ∧ length (batches reqs) = ceil_div (length (history_of archive "A")) 20
       ∧ Forall (λ refs, (length refs ≤ 20)%nat) (batches reqs)
       ∧ pages reqs
         = replicate (length (history_of archive "A") / 20) 20%nat
           ++ [(length (history_of archive "A") mod 20)%nat]
       ∧ history_of db' "A" = []
       ∧ inventory db' !! "A" = None)
  ∧ (∃ db' reqs,
       delete_inventory_item 2 "A" archive = (db', reqs, Raise recursion_error)
       ∧ doc_deletions reqs = []
       ∧ length (batches reqs) = 2%nat
       ∧ Forall (λ refs, length refs = 20%nat) (batches reqs)
       ∧ pages reqs = [20; 20]%nat
       ∧ length (history_of db' "A") = 5%nat
       ∧ inventory db' = inventory archive
       ∧ orders db' = orders archive)
  ∧ NoDup (history_of (busy_archive (20 * 1000)) "A").*1
  ∧ length (history_of (busy_archive (20 * 1000)) "A") = (20 * 1000)%nat
  ∧ (∃ db' reqs,
       delete_inventory_item 977 "A" (busy_archive (20 * 1000))
       = (db', reqs, Raise recursion_error)
       ∧ doc_deletions reqs = []
       ∧ length (batches reqs) = 977%nat
       ∧ Forall (λ refs, length refs = 20%nat) (batches reqs)
       ∧ pages reqs = replicate 977 20%nat
       ∧ length (history_of db' "A") = 460%nat
       ∧ inventory db' = inventory (busy_archive (20 * 1000))
       ∧ orders db' = orders (busy_archive (20 * 1000))).
Proof.
  assert (NoDup (history_of archive "A").*1) as Hnd
    by (apply (bool_decide_unpack _); vm_compute; exact I).
  assert (length (history_of archive "A") = 45%nat) as Hlen by reflexivity.
  assert (length (history_of archive "A") / 20 < 3)%nat as Hroom
    by (vm_compute; lia).
  assert (2 ≤ length (history_of archive "A") / 20)%nat as Hdeep
    by (vm_compute; lia).
  assert (NoDup (history_of (busy_archive (20 * 1000)) "A").*1) as Hnd'
    by (rewrite history_of_busy_archive, sales_history_ids; apply NoDup_seq).
  assert (length (history_of (busy_archive (20 * 1000)) "A") = (20 * 1000)%nat)
    as Hlen' by (rewrite history_of_busy_archive; apply length_sales_history).
  assert (977 ≤ length (history_of (busy_archive (20 * 1000)) "A") / 20)%nat
    as Hdeep'
    by (rewrite Hlen', Nat.mul_comm, Nat.div_mul by done; vm_compute; lia).
  split; [exact Hnd|]. split; [exact Hlen|].
  split; [exact (proj1 (delete_inventory_item_batches 3 "A" archive Hnd) Hroom)|].
  split.
  { destruct (proj2 (delete_inventory_item_batches 2 "A" archive Hnd) Hdeep)
      as (db' & reqs & Hrun & Hdel & Hbat & Hall & Hpag & Hleft & Hinv & Hord).
    exists db', reqs. rewrite Hlen in Hleft. by split_and!. }
  split; [exact Hnd'|]. split; [exact Hlen'|].
  destruct (proj2 (delete_inventory_item_batches 977 "A"
                     (busy_archive (20 * 1000)) Hnd') Hdeep')
    as (db' & reqs & Hrun & Hdel & Hbat & Hall & Hpag & Hleft & Hinv & Hord).
  exists db', reqs. rewrite Hlen' in Hleft. by split_and!.
Defined.

(** C9 as stated fails on a save that renames A and gives no quantity: the
    item keeps its quantity of 10, and the entry appended has no
    [quantity_change]. *)
Lemma save_without_quantity_counterexample :
  let r := save_inventory_item clock rename_A "A" false None shop in
  quantity rename_A = None
  ∧ (inventory r.1.1 !! "A" ≫= quantity) = Some 10
  ∧ (history_of r.1.1 "A").*2
    = [mk_history 1700000000 "Ajuste Manual" None "Item actualizado manualmente."].
Proof. split_and!; vm_compute; reflexivity. Qed.



(** * Further properties

    ** Direct sales that fail *)

Section DirectSaleFailure.
Context {price : Type} `{Money price}.
Implicit Types (db : store price) (it : line_item price).
Implicit Types (us : list (item_update price)).
Implicit Types (items pre post : list (line_item price)).

Lemma check_sold_items_short db pre it post us :
  mapM (line_update db) pre = Some us →
  short db it →
  ∀ acc enr total,
    check_sold_items db (pre ++ it :: post) acc enr total
    = Raise (ValueError ("Stock insuficiente para '"
                         +:+ fmt_name (li_name it) +:+ "'.")).
Proof.
  intros Hm (d & Hd & Hlt). revert us Hm.
  induction pre as [|p pre IH]; intros us Hm acc enr total; simpl.
  - rewrite Hd. by destruct (Z.ltb_spec (get (quantity d) 0) (li_quantity it)); [|lia].
  - apply mapM_line_update_cons in Hm as (d' & us' & Hp & _ & Hlt' & Hus & ->).
    rewrite Hp, Hlt'. by apply (IH us').
Qed.

Lemma check_sold_items_missing db pre it post us :
  mapM (line_update db) pre = Some us →
  inventory db !! li_id it = None →
  ∀ acc enr total,
    check_sold_items db (pre ++ it :: post) acc enr total
    = Raise (ValueError ("Producto '" +:+ fmt_name (li_name it)
                         +:+ "' no encontrado en BD.")).
Proof.
  intros Hm Hd. revert us Hm.
  induction pre as [|p pre IH]; intros us Hm acc enr total; simpl.
  - by rewrite Hd.
  - apply mapM_line_update_cons in Hm as (d' & us' & Hp & _ & Hlt' & Hus & ->).
    rewrite Hp, Hlt'. by apply (IH us').
Qed.

(** X1. [process_direct_sale] succeeds exactly when every line is in stock.
    Otherwise it returns [ok = false] with no alerts and the store is as it
    was, with no order created; the message is that of the first line that
    cannot be served: of insufficient stock when its item is there, of a
    product not found when it is not. *)
Theorem direct_sale_fails_closed now items sale_id payment_data db :
  ((process_direct_sale now items sale_id payment_data db).2.1.1 = true
   ↔ Forall (in_stock db) items)
  ∧ (¬ Forall (in_stock db) items →
     ∃ msg, process_direct_sale now items sale_id payment_data db
            = (db, (false, msg, []))
       ∧ (∀ pre it post,
            items = pre ++ it :: post →
            Forall (in_stock db) pre →
            short db it →
            msg = "Error al procesar venta: Stock insuficiente para '"
                  +:+ fmt_name (li_name it) +:+ "'.")
       ∧ (∀ pre it post,
            items = pre ++ it :: post →
            Forall (in_stock db) pre →
            inventory db !! li_id it = None →
            msg = "Error al procesar venta: Producto '"
                  +:+ fmt_name (li_name it) +:+ "' no encontrado en BD.")).
Proof.
  split.
  - split.
    + intros Hok. apply in_stock_mapM.
      destruct (mapM (line_update db) items) as [us|] eqn:Hm; [eauto|].
      destruct (process_direct_sale_Raise now items sale_id payment_data db Hm)
        as [e He].
      rewrite He in Hok. discriminate.
    + intros [us Hm]%in_stock_mapM.
      by destruct (process_direct_sale_Ok now items sale_id payment_data db us Hm)
        as (db' & -> & _).
  - intros Hnot.
    assert (mapM (line_update db) items = None) as Hm.
    { destruct (mapM (line_update db) items) as [us|] eqn:Hm; [|done].
      destruct Hnot. apply in_stock_mapM. eauto. }
    destruct (check_sold_items_Raise db items Hm) as [e He].
    exists ("Error al procesar venta: " +:+ str_exn e). split_and!.
    + unfold process_direct_sale, transactional, _process_direct_sale_atomic.
      by rewrite He.
    + intros pre it post -> [us Hpre]%in_stock_mapM Hshort.
      specialize (He [] [] zero_price).
      rewrite (check_sold_items_short db pre it post us Hpre Hshort) in He.
      by injection He as <-.
    + intros pre it post -> [us Hpre]%in_stock_mapM Hd.
      specialize (He [] [] zero_price).
      rewrite (check_sold_items_missing db pre it post us Hpre Hd) in He.
      by injection He as <-.
Qed.

End DirectSaleFailure.

(** ** What the writes keep *)

Section Kept.
Context {price : Type} `{Money price}.
Implicit Types (db : store price) (ws : list (write price)).

Lemma same_but_quantity_refl (a : option (item_data price)) :
  same_but_quantity a a.
Proof. by destruct a. Qed.

Lemma same_but_quantity_trans (a b c : option (item_data price)) :
  same_but_quantity a b → same_but_quantity b c → same_but_quantity a c.
Proof.
  destruct a as [d1|], b as [d2|], c as [d3|]; simpl; try done.
  intros (-> & -> & -> & -> & ->) (-> & -> & -> & -> & ->). done.
Qed.

Lemma apply_write_keeps (w : write price) db db' :
  apply_write w db = Ok db' →
  (∀ i, history_of db i `prefix_of` history_of db' i)
  ∧ (∀ i, same_but_quantity (inventory db !! i) (inventory db' !! i)).
Proof.
  destruct w as [item q|item h|order t|order o]; simpl.
  - destruct (inventory db !! item) as [d|] eqn:Hd; [|done].
    intros [= <-]. split; [done|]. intros i. simpl. rewrite lookup_insert.
    destruct (decide (item = i)) as [<-|]; [|apply same_but_quantity_refl].
    rewrite Hd. simpl. by split_and!.
  - intros [= <-]. split.
    + intros i. rewrite history_of_add_history.
      destruct (decide (item = i)) as [<-|]; [by apply prefix_app_r|done].
    + intros i. apply same_but_quantity_refl.
  - destruct (orders db !! order); [|done]. intros [= <-].
    split; intros i; [done|apply same_but_quantity_refl].
  - intros [= <-]. split; intros i; [done|apply same_but_quantity_refl].
Qed.

Lemma commit_keeps ws : ∀ db db',
  commit ws db = Ok db' →
  (∀ i, history_of db i `prefix_of` history_of db' i)
  ∧ (∀ i, same_but_quantity (inventory db !! i) (inventory db' !! i)).
Proof.
  induction ws as [|w ws IH]; intros db db'; simpl.
  - intros [= <-]. split; intros i; [done|apply same_but_quantity_refl].
  - destruct (apply_write w db) as [db1|] eqn:Hw; [|done]. simpl.
    intros Hc. destruct (apply_write_keeps w db db1 Hw) as [Hh1 Hi1].
    destruct (IH db1 db' Hc) as [Hh2 Hi2]. split; intros i.
    + etrans; [apply Hh1|apply Hh2].
    + eapply same_but_quantity_trans; [apply Hi1|apply Hi2].
Qed.

Lemma transactional_keeps {A} (body : store price → result (A * list (write price)))
    db :
  (∀ i, history_of db i `prefix_of` history_of (transactional body db).1 i)
  ∧ (∀ i, same_but_quantity (inventory db !! i)
                            (inventory (transactional body db).1 !! i)).
Proof.
  unfold transactional. destruct (body db) as [[ret ws]|e]; simpl.
  - destruct (commit ws db) as [db'|e] eqn:Hc; simpl.
    + by apply (commit_keeps ws).
    + split; intros i; [done|apply same_but_quantity_refl].
  - split; intros i; [done|apply same_but_quantity_refl].
Qed.

Lemma complete_order_store now oid db :
  (complete_order now oid db).1
  = (transactional (_complete_order_atomic now oid) db).1.
Proof.
  unfold complete_order.
  by destruct (transactional _ db) as [db' [ret|e]].
Qed.

Lemma process_direct_sale_store now items sale_id payment_data db :
  (process_direct_sale now items sale_id payment_data db).1
  = (transactional (_process_direct_sale_atomic now items sale_id
                      (payment_or_default payment_data)) db).1.
Proof.
  unfold process_direct_sale. fold (payment_or_default payment_data).
  by destruct (transactional _ db) as [db' [ret|e]].
Qed.

(** X2. No operation changes, removes or reorders an entry of a history:
    after any sequence of saves, completions and direct sales, the history
    of every item begins with the history it had. *)
Theorem history_append_only (ops : list (op price)) db item :
  history_of db item `prefix_of` history_of (run ops db) item.
Proof.
  revert db. induction ops as [|o ops IH]; intros db; [done|].
  change (run (o :: ops) db) with (run ops (run_op o db)).
  etrans; [|apply IH].
  destruct o as [now data custom_id is_new details_| now oid
                | now items sale_id payment_data]; simpl.
  - rewrite history_of_add_history.
    destruct (decide (custom_id = item)) as [<-|]; [|done].
    by apply prefix_app_r.
  - rewrite complete_order_store. apply transactional_keeps.
  - rewrite process_direct_sale_store. apply transactional_keeps.
Qed.

(** X3. The operations of the ledger write no field of an inventory
    document but its quantity, and create and delete no inventory
    document: after any sequence of completions and direct sales every
    item has the name, prices, alert threshold and date it had. *)
Theorem ledger_changes_quantities_only (ops : list (op price)) db :
  Forall ledger_op ops →
  ∀ item, same_but_quantity (inventory db !! item)
                            (inventory (run ops db) !! item).
Proof.
  intros Hops. revert db.
  induction Hops as [|o ops Ho _ IH]; intros db item.
  - apply same_but_quantity_refl.
  - change (run (o :: ops) db) with (run ops (run_op o db)).
    eapply same_but_quantity_trans; [|apply IH].
    destruct o as [| now oid | now items sale_id payment_data]; simpl.
    + done.
    + rewrite complete_order_store. apply transactional_keeps.
    + rewrite process_direct_sale_store. apply transactional_keeps.
Qed.

End Kept.

(** ** The order of a direct sale *)

Section DirectSaleOrder.
Context {price : Type} `{Money price}.
Implicit Types (db : store price) (items : list (line_item price)).

(** X4. A direct sale that succeeds writes the whole document of its order:
    completed, marked as a direct sale, with the payment method and the
    customer given or else [efectivo] and [Cliente General], and with two
    readings of the clock made after those of the history entries. An order
    that had the id of the sale is replaced, so that the number of orders
    grows by one only when the id is new; the other orders stay. *)
Theorem direct_sale_replaces_order now items sale_id payment_data db db' msg alerts :
  process_direct_sale now items sale_id payment_data db = (db', (true, msg, alerts)) →
  ∃ o, orders db' !! sale_id = Some o
    ∧ status o = Some "completed"
    ∧ is_direct_sale o = Some true
    ∧ payment_method o = Some (get (payment_data ≫= method) "efectivo")
    ∧ customer_name o = Some (get (payment_data ≫= customer) "Cliente General")
    ∧ timestamp o = Some (now (length items))
    ∧ completed_at o = Some (now (S (length items)))
    ∧ (∀ k, k ≠ sale_id → orders db' !! k = orders db !! k)
    ∧ (get_order_count db').2
      = Ok (if decide (is_Some (orders db !! sale_id))
            then size (orders db) else S (size (orders db))).
Proof.
  intros (us & Hm & Hcommit & _)%process_direct_sale_true_inv.
  destruct (commit_sale_txn now items sale_id (payment_or_default payment_data)
              db us (mapM_line_update_exists _ _ _ Hm))
    as (db1 & Hc1 & Hord & _).
  rewrite Hcommit in Hc1. injection Hc1 as <-.
  exists (sale_order db now items sale_id (payment_or_default payment_data)).
  split_and!; try done.
  - rewrite Hord. apply lookup_insert_eq.
  - by destruct payment_data.
  - by destruct payment_data.
  - intros k Hk. rewrite Hord. by apply lookup_insert_ne.
  - unfold get_order_count, firestore_retry. simpl. rewrite Hord. f_equal.
    destruct (decide (is_Some (orders db !! sale_id))) as [Hsome|Hnone].
    + by apply map_size_insert_Some.
    + apply map_size_insert_None. by apply eq_None_not_Some.
Qed.

Lemma string_app_cons c (s1 s2 : string) :
  String c s1 +:+ s2 = String c (s1 +:+ s2).
Proof. done. Qed.

Lemma string_app_nil_r (s : string) : s +:+ "" = s.
Proof.
  induction s as [|c s IH]; [done|]. by rewrite string_app_cons, IH.
Qed.

Lemma string_app_assoc (s1 s2 s3 : string) :
  (s1 +:+ s2) +:+ s3 = s1 +:+ (s2 +:+ s3).
Proof.
  induction s1 as [|c s1 IH]; [done|]. by rewrite !string_app_cons, IH.
Qed.

Lemma last_segment_free s : ∀ seg,
  hyphen_free s = true → last_segment s seg = seg +:+ s.
Proof.
  induction s as [|c s IH]; intros seg Hs; simpl in *.
  - by rewrite string_app_nil_r.
  - apply andb_true_iff in Hs as [Hc Hs]. apply negb_true_iff in Hc.
    by rewrite Hc, (IH _ Hs), string_app_assoc.
Qed.

Lemma last_segment_hyphen pre suf : ∀ seg,
  last_segment (pre +:+ String "-" suf) seg = last_segment suf "".
Proof.
  induction pre as [|c pre IH]; intros seg; [done|].
  rewrite string_app_cons. simpl. destruct (Ascii.eqb c "-"); apply IH.
Qed.

(** X5. The title of the order of a direct sale ends with what follows the
    last hyphen of the id of the sale, and with the whole id when it has no
    hyphen. *)
Theorem direct_sale_title now items sale_id payment_data db db' msg alerts :
  process_direct_sale now items sale_id payment_data db = (db', (true, msg, alerts)) →
  (∀ pre suf, sale_id = pre +:+ "-" +:+ suf → hyphen_free suf = true →
     orders db' !! sale_id ≫= title = Some ("Venta Directa " +:+ suf))
  ∧ (hyphen_free sale_id = true →
     orders db' !! sale_id ≫= title = Some ("Venta Directa " +:+ sale_id)).
Proof.
  intros (us & Hm & Hcommit & _)%process_direct_sale_true_inv.
  destruct (commit_sale_txn now items sale_id (payment_or_default payment_data)
              db us (mapM_line_update_exists _ _ _ Hm))
    as (db1 & Hc1 & Hord & _).
  rewrite Hcommit in Hc1. injection Hc1 as <-.
  rewrite Hord, lookup_insert_eq. simpl. split.
  - intros pre suf -> Hsuf. simpl.
    change ("-" +:+ suf) with (String "-" suf).
    by rewrite last_segment_hyphen, last_segment_free.
  - intros Hfree. by rewrite last_segment_free.
Qed.

End DirectSaleOrder.

(** ** Retries *)

Section RetryBounds.
Context {W A : Type}.
Implicit Types (func : W → W * result A) (active : option exn).

(** X6. Whatever the wrapped function does, the decorator sleeps 1, then 2,
    then 4 and no more, once after each failed call. When it returns a
    value it has logged no error and slept twice at most; when it raises,
    it has slept all three times, the last after the last failure, has
    logged the error last, and raises what a bare [raise] raises: the
    exception that the caller was handling, or a [RuntimeError]. *)
Theorem firestore_retry_sleeps func active w :
  let trace := (firestore_retry func active w).1.2 in
  (sleeps trace `prefix_of` [1; 2; 4])
  ∧ match (firestore_retry func active w).2 with
    | Ok _ => (LogError ∉ trace) ∧ (length (sleeps trace) < 3)%nat
    | Raise e => e = bare_raise active ∧ sleeps trace = [1; 2; 4]
                 ∧ last trace = Some LogError
    end.
Proof.
  destruct (firestore_retry_cases func active w)
    as [(? & ? & _ & ->)|[(? & ? & ? & ? & _ & _ & ->)
       |[(? & ? & ? & ? & ? & ? & _ & _ & _ & ->)
       |(? & ? & ? & ? & ? & ? & _ & _ & _ & ->)]]]; simpl.
  - split_and!; [apply prefix_nil|apply not_elem_of_nil|lia].
  - split_and!; [by exists [2; 4]| |lia].
    intros Hin. repeat (apply elem_of_cons in Hin as [?|Hin]; [done|]).
    by apply elem_of_nil in Hin.
  - split_and!; [by exists [4]| |lia].
    intros Hin. repeat (apply elem_of_cons in Hin as [?|Hin]; [done|]).
    by apply elem_of_nil in Hin.
  - done.
Qed.

End RetryBounds.

(** ** Saving, reading and deleting an item *)

Section ItemRoundTrips.
Context {price : Type} `{Money price}.
Implicit Types (db : store price) (data : item_data price).

Lemma option_union_twice {A} (x y : option A) : x ∪ (x ∪ y) = x ∪ y.
Proof. by destruct x, y. Qed.

Lemma option_union_self {A} (x : option A) : x ∪ x = x.
Proof. by destruct x. Qed.

Lemma option_union_Some_l {A} (v : A) (y : option A) : Some v ∪ y = Some v.
Proof. by destruct y. Qed.

Lemma merge_fields_twice (data old : item_data price) :
  merge_fields data (merge_fields data old) = merge_fields data old.
Proof. unfold merge_fields. simpl. by rewrite !option_union_twice. Qed.

Lemma merge_fields_self (data : item_data price) : merge_fields data data = data.
Proof.
  destruct data as [n q s p m u]. unfold merge_fields. simpl.
  by rewrite !option_union_self.
Qed.

(** X7. Saving the same data twice leaves the document as the first save
    left it, but appends a second entry to the history: a save that is
    repeated is repeated in the history. *)
Theorem save_inventory_item_twice now now' data custom_id is_new is_new'
    details_ details_' db :
  let db1 := (save_inventory_item now data custom_id is_new details_ db).1.1 in
  let db2 := (save_inventory_item now' data custom_id is_new' details_' db1).1.1 in
  inventory db2 = inventory db1
  ∧ length (history_of db2 custom_id) = S (S (length (history_of db custom_id))).
Proof.
  simpl. split.
  - rewrite lookup_insert_eq, insert_insert_eq. f_equal.
    destruct (inventory db !! custom_id) as [old|].
    + apply merge_fields_twice.
    + apply merge_fields_self.
  - rewrite history_of_add_history, decide_True by done.
    rewrite length_app. simpl.
    change (history_of (set_merge custom_id data ?d) custom_id)
      with (history_of d custom_id).
    rewrite history_of_add_history, decide_True by done.
    rewrite length_app. simpl.
    change (history_of (set_merge custom_id data db) custom_id)
      with (history_of db custom_id).
    lia.
Qed.

(** X8. An item that is saved reads back: [get_inventory_item_details]
    returns, without a retry, the document under its id with every field
    that the data has; an item saved under a new id reads back as the data
    given. *)
Theorem save_then_get_details now data custom_id is_new details_ db :
  let db' := (save_inventory_item now data custom_id is_new details_ db).1.1 in
  ∃ d, get_inventory_item_details custom_id db' = (db', [], Ok (Some (custom_id, d)))
    ∧ (∀ v, name data = Some v → name d = Some v)
    ∧ (∀ v, quantity data = Some v → quantity d = Some v)
    ∧ (∀ v, sale_price data = Some v → sale_price d = Some v)
    ∧ (∀ v, purchase_price data = Some v → purchase_price d = Some v)
    ∧ (∀ v, min_stock_alert data = Some v → min_stock_alert d = Some v)
    ∧ (∀ v, updated_at data = Some v → updated_at d = Some v)
    ∧ (inventory db !! custom_id = None → d = data).
Proof.
  simpl. eexists. split.
  - unfold get_inventory_item_details, firestore_retry,
      get_inventory_item_details_body. simpl.
    by rewrite lookup_insert_eq.
  - destruct (inventory db !! custom_id) as [old|]; simpl.
    + split_and!; [intros v ->; by rewrite option_union_Some_l..|done].
    + by split_and!.
Qed.

End ItemRoundTrips.

Section DeleteFrame.
Context {price : Type} `{Money price}.
Implicit Types (db : store price).

Lemma _delete_collection_batch_frame item batch_size depth : ∀ db reqs db' reqs' r,
  _delete_collection_batch depth item batch_size db reqs = (db', reqs', r) →
  inventory db' = inventory db
  ∧ orders db' = orders db
  ∧ ∀ k, k ≠ item → history_of db' k = history_of db k.
Proof.
  induction depth as [|depth IH]; intros db reqs db' reqs' r.
  { by intros [= <- _ _]. }
  simpl.
  destruct (0 <? length (take batch_size (history_of db item)))%nat.
  - destruct (batch_size <=? _)%nat.
    + intros (Hi & Ho & Hh)%IH. split_and!; [done..|].
      intros k Hk. rewrite (Hh k Hk). unfold history_of. simpl.
      by rewrite lookup_insert_ne.
    + intros [= <- _ _]. split_and!; [done..|].
      intros k Hk. unfold history_of. simpl. by rewrite lookup_insert_ne.
  - destruct (batch_size <=? 0)%nat.
    + by intros ?%IH.
    + by intros [= <- _ _].
Qed.

(** X9. Deleting an item touches nothing else: the orders, the other
    items and their histories stay as they were. An order that names the
    deleted item can then not be completed: the call returns [ok = false]
    and changes nothing. *)
Theorem delete_inventory_item_frame depth doc_id db db' reqs :
  delete_inventory_item depth doc_id db = (db', reqs, Ok ()) →
  orders db' = orders db
  ∧ (∀ k, k ≠ doc_id →
       inventory db' !! k = inventory db !! k
       ∧ history_of db' k = history_of db k)
  ∧ (∀ now oid o ing,
       orders db !! oid = Some o →
       ing ∈ lines_of o →
       li_id ing = doc_id →
       ∃ msg, complete_order now oid db' = (db', (false, msg, []))).
Proof.
  unfold delete_inventory_item.
  destruct (_delete_collection_batch depth doc_id 20 db [])
    as [[db1 reqs1] [[]|e]] eqn:Hb; [|done].
  intros [= <- _].
  apply _delete_collection_batch_frame in Hb as (Hi & Ho & Hh).
  split_and!.
  - done.
  - intros k Hk. split; [|by apply Hh]. simpl.
    by rewrite lookup_delete_ne, Hi.
  - intros now oid o ing Hoid Hing Hid.
    set (db' := mk_store (delete doc_id (inventory db1)) (history db1) (orders db1)).
    assert (orders db' !! oid = Some o) as Hoid' by (simpl; by rewrite Ho).
    assert (mapM (line_update db') (lines_of o) = None) as Hm.
    { apply mapM_None_2, Exists_exists. exists ing. split; [done|].
      unfold line_update. simpl. by rewrite Hid, lookup_delete_eq. }
    destruct (_complete_order_atomic_Raise now oid db' o Hoid' Hm) as [e He].
    eexists. by apply complete_order_Raise.
Qed.

(** X10. An item that is deleted reads back as [None]. *)
Theorem delete_then_get_details depth doc_id db db' reqs :
  delete_inventory_item depth doc_id db = (db', reqs, Ok ()) →
  get_inventory_item_details doc_id db' = (db', [], Ok None).
Proof.
  unfold delete_inventory_item.
  destruct (_delete_collection_batch depth doc_id 20 db [])
    as [[db1 reqs1] [[]|e]]; [|done].
  intros [= <- _].
  unfold get_inventory_item_details, firestore_retry,
    get_inventory_item_details_body. simpl.
  by rewrite lookup_delete_eq.
Qed.

End DeleteFrame.

(** ** Sorted listings *)

Section StableSortFacts.
Context {A K : Type} (le : K → K → bool) (key : A → K).

Lemma insert_sorted_Permutation x l : insert_sorted le key x l ≡ₚ x :: l.
Proof.
  induction l as [|y l IH]; simpl; [done|].
  destruct (le (key y) (key x)); [|done].
  rewrite IH. apply Permutation_swap.
Qed.

Lemma sorted_by_Permutation l : sorted_by le key l ≡ₚ l.
Proof.
  unfold sorted_by.
  assert (∀ acc, foldl (λ acc x, insert_sorted le key x acc) acc l ≡ₚ acc ++ l)
    as Hfold; [|apply (Hfold [])].
  induction l as [|x l IH]; intros acc; simpl.
  - by rewrite app_nil_r.
  - rewrite IH, insert_sorted_Permutation. simpl. apply Permutation_middle.
Qed.

Hypothesis le_total : ∀ a b, le a b = true ∨ le b a = true.

Lemma insert_sorted_Sorted x l :
  Sorted (λ a b, le (key a) (key b) = true) l →
  Sorted (λ a b, le (key a) (key b) = true) (insert_sorted le key x l).
Proof.
  induction 1 as [|y l Hl IH Hhd]; simpl.
  - by repeat constructor.
  - destruct (le (key y) (key x)) eqn:Hyx.
    + constructor; [done|].
      destruct Hhd as [|z l Hyz]; simpl in *; [by constructor|].
      destruct (le (key z) (key x)); by constructor.
    + constructor; [by constructor|]. constructor.
      destruct (le_total (key x) (key y)); congruence.
Qed.

Lemma sorted_by_Sorted l :
  Sorted (λ a b, le (key a) (key b) = true) (sorted_by le key l).
Proof.
  unfold sorted_by.
  assert (∀ acc, Sorted (λ a b, le (key a) (key b) = true) acc →
                 Sorted (λ a b, le (key a) (key b) = true)
                        (foldl (λ acc x, insert_sorted le key x acc) acc l))
    as Hfold; [|apply (Hfold []); constructor].
  induction l as [|x l IH]; intros acc Hacc; simpl; [done|].
  by apply IH, insert_sorted_Sorted.
Qed.

End StableSortFacts.

Lemma Sorted_weaken {A} (R R' : A → A → Prop) (l : list A) :
  (∀ a b, R a b → R' a b) → Sorted R l → Sorted R' l.
Proof.
  intros HR. induction 1 as [|x l _ IH Hhd]; constructor; [done|].
  destruct Hhd; constructor. by apply HR.
Qed.

Section QueryFacts.
Context {price : Type} `{Money price}.
Variable stream : ∀ V, gmap string V → list (string * V).
Variable lower : string → string.
Hypothesis stream_perm : ∀ V (m : gmap string V), stream V m ≡ₚ map_to_list m.
Implicit Types (db : store price) (o : order_data price).

Lemma stream_elem {V} (m : gmap string V) k v :
  (k, v) ∈ stream V m ↔ m !! k = Some v.
Proof. by rewrite stream_perm, elem_of_map_to_list. Qed.

Lemma stream_NoDup {V} (m : gmap string V) : NoDup (stream V m).*1.
Proof. rewrite stream_perm. apply NoDup_fst_map_to_list. Qed.

(** X11. [get_all_inventory_items] returns, without a retry, every
    inventory document once, under its id, in the order of the names in
    lower case; a document without a name counts as one with the empty
    name. *)
Theorem get_all_inventory_items_sorted db :
  ∃ items,
    get_all_inventory_items stream lower db = (db, [], Ok items)
    ∧ (∀ k d, (k, d) ∈ items ↔ inventory db !! k = Some d)
    ∧ NoDup items.*1
    ∧ Sorted (λ a b, String.leb (lower (get (name a.2) ""))
                                (lower (get (name b.2) "")) = true) items.
Proof.
  eexists. split; [reflexivity|].
  pose proof (sorted_by_Permutation String.leb
                (λ x : string * item_data price, lower (get (name x.2) ""))
                (stream _ (inventory db))) as Hp.
  split_and!.
  - intros k d. by rewrite Hp, stream_elem.
  - rewrite Hp. apply stream_NoDup.
  - apply (sorted_by_Sorted String.leb
             (λ x : string * item_data price, lower (get (name x.2) ""))).
    apply String.leb_total.
Qed.

Lemma Z_geb_total (a b : Z) : (b <=? a) = true ∨ (a <=? b) = true.
Proof. destruct (Z.leb_spec b a), (Z.leb_spec a b); auto; lia. Qed.

(** X12. [get_orders] returns, without a retry, each order of the given
    status once, under its id, the newest first; an order without a
    timestamp counts as one of [datetime.min]. With no status, or with the
    empty one, it returns all the orders. *)
Theorem get_orders_newest_first status_ db :
  ∃ l,
    get_orders stream status_ db = (db, [], Ok l)
    ∧ (∀ k o, (k, o) ∈ l ↔
         orders db !! k = Some o
         ∧ match status_filter status_ with
           | Some s => status o = Some s
           | None => True
           end)
    ∧ NoDup l.*1
    ∧ Sorted (λ a b, timestamp_obj b.2 ≤ timestamp_obj a.2) l.
Proof.
  eexists. split; [reflexivity|].
  set (docs := match status_filter status_ with
               | Some s => stream _ (filter (λ kv, status kv.2 = Some s) (orders db))
               | None => stream _ (orders db)
               end).
  pose proof (sorted_by_Permutation (λ a b, b <=? a)
                (λ x : string * order_data price, timestamp_obj x.2) docs) as Hp.
  split_and!.
  - intros k o. rewrite Hp. unfold docs.
    destruct (status_filter status_) as [s|].
    + rewrite stream_elem, map_lookup_filter_Some. done.
    + rewrite stream_elem. split; [done|by intros [? _]].
  - rewrite Hp. unfold docs.
    destruct (status_filter status_); apply stream_NoDup.
  - eapply Sorted_weaken;
      [|apply (sorted_by_Sorted (λ a b, b <=? a)
                 (λ x : string * order_data price, timestamp_obj x.2));
        intros a b; apply Z_geb_total].
    intros a b. simpl. apply Z.leb_le.
Qed.

Lemma completed_in_true start_date end_date o :
  completed_in start_date end_date o = true ↔
  status o = Some "completed"
  ∧ ∃ t, completed_at o = Some t ∧ start_date ≤ t ∧ t < end_date.
Proof.
  unfold completed_in. rewrite andb_true_iff, bool_decide_eq_true.
  destruct (completed_at o) as [t|].
  - rewrite andb_true_iff, Z.leb_le, Z.ltb_lt. split.
    + intros (? & ? & ?). eauto.
    + by intros (? & t' & [= <-] & ? & ?).
  - split; [by intros [_ ?]|by intros (_ & t & ? & _)].
Qed.

Lemma get_orders_in_date_range_elem start_date end_date db k o :
  (k, o) ∈ stream _ (filter (λ kv, completed_in start_date end_date kv.2 = true)
                            (orders db))
  ↔ orders db !! k = Some o
    ∧ status o = Some "completed"
    ∧ ∃ t, completed_at o = Some t ∧ start_date ≤ t ∧ t < end_date.
Proof.
  rewrite stream_elem, map_lookup_filter_Some. simpl.
  by rewrite completed_in_true.
Qed.

(** X13. [get_orders_in_date_range] returns, without a retry, each order
    once that is completed and whose [completed_at] is at or after the
    start and before the end; an order without [completed_at] is never
    returned, and no order is when the end is not after the start. *)
Theorem get_orders_in_date_range_members start_date end_date db :
  ∃ l,
    get_orders_in_date_range stream start_date end_date db = (db, [], Ok l)
    ∧ (∀ k o, (k, o) ∈ l ↔
         orders db !! k = Some o
         ∧ status o = Some "completed"
         ∧ ∃ t, completed_at o = Some t ∧ start_date ≤ t ∧ t < end_date)
    ∧ NoDup l.*1
    ∧ (end_date ≤ start_date → l = []).
Proof.
  eexists. split; [reflexivity|]. split_and!.
  - intros k o. apply get_orders_in_date_range_elem.
  - apply stream_NoDup.
  - intros Hle. apply elem_of_nil_inv. intros [k o] Hin.
    apply get_orders_in_date_range_elem in Hin as (_ & _ & t & _ & ? & ?). lia.
Qed.

End QueryFacts.

(** ** Orders: reports, cancellation, creation *)

Section OrderFacts.
Context {price : Type} `{Money price}.
Variable stream : ∀ V, gmap string V → list (string * V).
Hypothesis stream_perm : ∀ V (m : gmap string V), stream V m ≡ₚ map_to_list m.
Implicit Types (db : store price) (o : order_data price).
Implicit Types (ings items pre post : list (line_item price)).

(** X14. The order of a direct sale that succeeds is in the report of a
    range of dates exactly when the second reading of the clock that the
    sale makes for its order, its [completed_at], is in the range. *)
Theorem direct_sale_is_reported now items sale_id payment_data db db' msg alerts
    start_date end_date :
  process_direct_sale now items sale_id payment_data db = (db', (true, msg, alerts)) →
  ∃ l o,
    get_orders_in_date_range stream start_date end_date db' = (db', [], Ok l)
    ∧ orders db' !! sale_id = Some o
    ∧ ((sale_id, o) ∈ l
       ↔ start_date ≤ now (S (length items)) ∧ now (S (length items)) < end_date).
Proof.
  intros (us & Hm & Hcommit & _)%process_direct_sale_true_inv.
  destruct (commit_sale_txn now items sale_id (payment_or_default payment_data)
              db us (mapM_line_update_exists _ _ _ Hm))
    as (db1 & Hc1 & Hord & _).
  rewrite Hcommit in Hc1. injection Hc1 as <-.
  assert (orders db' !! sale_id
          = Some (sale_order db now items sale_id (payment_or_default payment_data)))
    as Ho by (rewrite Hord; apply lookup_insert_eq).
  eexists _, _. split_and!; [reflexivity|exact Ho|].
  rewrite (get_orders_in_date_range_elem stream stream_perm). simpl. split.
  - by intros (_ & _ & t & [= <-] & ? & ?).
  - intros [? ?]. split_and!; [done..|]. eauto.
Qed.

(** X15. An order that [complete_order] completes is in the report of a
    range of dates exactly when the reading of the clock that the call
    makes for it, after those of the history entries, is in the range;
    the [completed_at] that the order had before plays no part. *)
Theorem completed_order_is_reported now oid db db' msg alerts start_date end_date :
  complete_order now oid db = (db', (true, msg, alerts)) →
  ∃ l o o',
    get_orders_in_date_range stream start_date end_date db' = (db', [], Ok l)
    ∧ orders db !! oid = Some o
    ∧ orders db' !! oid = Some o'
    ∧ ((oid, o') ∈ l
       ↔ start_date ≤ now (length (lines_of o))
         ∧ now (length (lines_of o)) < end_date).
Proof.
  intros (o & us & Ho & Hm & Hcommit & _)%complete_order_true_inv.
  destruct (commit_completed_txn now oid db o us Ho
              (mapM_line_update_exists _ _ _ Hm))
    as (db1 & Hc1 & Hord & _).
  rewrite Hcommit in Hc1. injection Hc1 as <-.
  assert (length us = length (lines_of o)) as Hlen
    by (symmetry; by apply (length_mapM (line_update db))).
  assert (orders db' !! oid = Some (set_completed (now (length (lines_of o))) o))
    as Ho' by (rewrite Hord, Hlen; apply lookup_insert_eq).
  eexists _, o, _. split_and!; [reflexivity|exact Ho|exact Ho'|].
  rewrite (get_orders_in_date_range_elem stream stream_perm). simpl. split.
  - by intros (_ & _ & t & [= <-] & ? & ?).
  - intros [? ?]. split_and!; [done..|]. eauto.
Qed.

End OrderFacts.

Section CancelCreate.
Context {price : Type} `{Money price}.
Implicit Types (db : store price) (o : order_data price).
Implicit Types (ings items pre post : list (line_item price)).

(** X16. [cancel_order] deletes the document of the order, without a retry
    and whether there was one or not, and nothing else: the other orders,
    the inventory and the histories stay, so that the stock that a
    completed order took is not given back. The order can then not be
    completed, and cancelling it again changes nothing. *)
Theorem cancel_order_effect order_id db :
  let db' := (cancel_order order_id db).1.1 in
  cancel_order order_id db = (db', [], Ok ())
  ∧ orders db' !! order_id = None
  ∧ (∀ k, k ≠ order_id → orders db' !! k = orders db !! k)
  ∧ inventory db' = inventory db
  ∧ history db' = history db
  ∧ (∀ now, complete_order now order_id db'
            = (db', (false, "Error transacción: La venta/pedido no existe.", [])))
  ∧ (cancel_order order_id db').1.1 = db'.
Proof.
  simpl. split_and!; try done.
  - apply lookup_delete_eq.
  - intros k Hk. by apply lookup_delete_ne.
  - intros now. apply complete_order_missing_order. apply lookup_delete_eq.
  - f_equal. apply delete_delete_eq.
Qed.

Lemma enrich_ingredients_reprice db ings : ∀ enriched,
  enrich_ingredients db ings enriched = Ok (enriched ++ (reprice db <$> ings)).
Proof.
  induction ings as [|ing ings IH]; intros enriched; simpl.
  - by rewrite app_nil_r.
  - rewrite IH, <- app_assoc. simpl. unfold reprice at 2.
    by destruct (inventory db !! li_id ing).
Qed.

Lemma fresh_order_id_fresh db : orders db !! fresh_order_id db = None.
Proof. apply not_elem_of_dom, is_fresh. Qed.

Lemma create_order_store ings o db :
  create_order ings o db
  = (put_order (fresh_order_id db)
       (mk_order (title o) (o_price o) (Some (reprice db <$> ings)) (status o)
                 (timestamp o) (completed_at o)
                 (Some (get (payment_method o) "efectivo"))
                 (customer_name o) (is_direct_sale o)) db,
     [], Ok ()).
Proof.
  unfold create_order, firestore_retry, create_order_body. simpl.
  by rewrite enrich_ingredients_reprice.
Qed.

(** X17. [create_order] stores the order under an id that no order has,
    without a retry and without a look at the stock: the inventory, the
    histories and the other orders stay. Each ingredient keeps its id, name
    and quantity; its prices become those of the inventory when its item is
    there (nothing for a price that the item has not), and stay as given
    when it is not. The payment method is [efectivo] when none is given;
    status, title, price, dates and customer are as given. *)
Theorem create_order_effect ings o db :
  ∃ oid o',
    create_order ings o db = (put_order oid o' db, [], Ok ())
    ∧ orders db !! oid = None
    ∧ (∃ ings', ingredients o' = Some ings'
         ∧ Forall2 (λ ing ing',
              li_id ing' = li_id ing ∧ li_name ing' = li_name ing
              ∧ li_quantity ing' = li_quantity ing
              ∧ match inventory db !! li_id ing with
                | Some d =>
                    li_sale_price ing' = Some (get (sale_price d) zero_price)
                    ∧ li_purchase_price ing'
                      = Some (get (purchase_price d) zero_price)
                | None => ing' = ing
                end) ings ings')
    ∧ payment_method o' = Some (get (payment_method o) "efectivo")
    ∧ status o' = status o ∧ title o' = title o ∧ o_price o' = o_price o
    ∧ timestamp o' = timestamp o ∧ completed_at o' = completed_at o
    ∧ customer_name o' = customer_name o.
Proof.
  eexists _, _. split; [apply create_order_store|].
  split; [apply fresh_order_id_fresh|]. split; [|by split_and!].
  eexists. split; [reflexivity|].
  apply Forall2_fmap_r, Forall_Forall2_diag, Forall_forall. intros ing _.
  unfold reprice. simpl. destruct (inventory db !! li_id ing); simpl; by split_and!.
Qed.

Lemma in_stock_reprice db db' ing :
  inventory db' = inventory db → in_stock db ing → in_stock db' (reprice db ing).
Proof.
  intros Hinv (d & Hd & Hq). exists d. unfold reprice. rewrite Hd. simpl.
  by rewrite Hinv.
Qed.

Lemma li_id_reprice db ings : li_id <$> (reprice db <$> ings) = li_id <$> ings.
Proof.
  rewrite <- list_fmap_compose. apply list_fmap_ext. intros ? ing _. simpl.
  unfold reprice. by destruct (inventory db !! li_id ing).
Qed.

(** X18. An order that [create_order] has stored, all of whose ingredients
    are in stock, is completed by [complete_order] whatever its status: the
    call succeeds and leaves each item at the quantity it had less the
    quantity of the last ingredient that names it. *)
Theorem create_then_complete now ings o db :
  Forall (in_stock db) ings →
  ∃ oid db1 db2 msg alerts,
    create_order ings o db = (db1, [], Ok ())
    ∧ orders db !! oid = None
    ∧ complete_order now oid db1 = (db2, (true, msg, alerts))
    ∧ (∀ pre ing post,
         ings = pre ++ ing :: post →
         li_id ing ∉ li_id <$> post →
         quantity_of db2 (li_id ing)
         = quantity_of db (li_id ing) - li_quantity ing).
Proof.
  intros Hall.
  set (oid := fresh_order_id db).
  set (o' := mk_order (title o) (o_price o) (Some (reprice db <$> ings)) (status o)
                      (timestamp o) (completed_at o)
                      (Some (get (payment_method o) "efectivo"))
                      (customer_name o) (is_direct_sale o)).
  set (db1 := put_order oid o' db).
  assert (orders db1 !! oid = Some o') as Ho' by apply lookup_insert_eq.
  assert (Forall (in_stock db1) (lines_of o')) as Hall'.
  { apply Forall_fmap. eapply Forall_impl; [exact Hall|].
    intros ing. by apply in_stock_reprice. }
  apply in_stock_mapM in Hall' as [us Hm].
  destruct (complete_order_Ok now oid db1 o' us Ho' Hm) as (db2 & Hc & Hcommit).
  destruct (commit_completed_txn now oid db1 o' us Ho'
              (mapM_line_update_exists _ _ _ Hm))
    as (db3 & Hc3 & _ & Hinv & _).
  rewrite Hcommit in Hc3. injection Hc3 as <-.
  exists oid, db1, db2. eexists _, _. split_and!.
  - apply create_order_store.
  - apply fresh_order_id_fresh.
  - exact Hc.
  - intros pre ing post -> Hlast.
    unfold lines_of in Hm. simpl in Hm. rewrite fmap_app, fmap_cons in Hm.
    destruct (last_update_line db1 (reprice db <$> pre) (reprice db ing)
                (reprice db <$> post) us Hm) as (d & Hd & Hq & Hu).
    { rewrite li_id_reprice.
      unfold reprice at 1. by destruct (inventory db !! li_id ing). }
    assert (li_id (reprice db ing) = li_id ing) as Hid
      by (unfold reprice; by destruct (inventory db !! li_id ing)).
    assert (li_quantity (reprice db ing) = li_quantity ing) as Hqty
      by (unfold reprice; by destruct (inventory db !! li_id ing)).
    rewrite Hid, Hqty in *.
    rewrite (quantity_of_lookup db _ d Hd).
    unfold quantity_of. by rewrite Hinv, Hu, Hd.
Qed.

End CancelCreate.

(** ** The dashboard and the daily report *)

Section ReportFacts.
Context {price : Type} `{Money price}.

(** X19. The dashboard counts an item as low in stock exactly when the
    ledger would alert on its quantity, or its quantity is [0] or less and
    it has a threshold above [0]: the two tests differ on the items that
    are sold out, which the dashboard counts and the ledger is silent on. *)
Theorem dashboard_low_stock_iff (i : item_data price) :
  dashboard_low_stock i = true
  ↔ low_stock (min_stock_alert i) (get (quantity i) 0) = true
    ∨ (get (quantity i) 0 ≤ 0 ∧ 0 < get (min_stock_alert i) 0).
Proof.
  unfold dashboard_low_stock. rewrite low_stock_alert_condition.
  unfold alert_condition.
  rewrite andb_true_iff, Z.leb_le, Z.ltb_lt.
  destruct (min_stock_alert i) as [m|]; simpl.
  - split.
    + intros [? ?]. destruct (decide (0 < get (quantity i) 0)).
      * left. exists m. split_and!; [done..|lia].
      * right. lia.
    + intros [(m' & [= <-] & ? & ? & ?)|[? ?]]; lia.
  - split; [lia|]. intros [(m & ? & _)|[_ ?]]; [done|lia].
Qed.

Lemma daily_figures_fold (orders_ : list (order_data price)) :
  ∀ total cash credit details,
    daily_figures orders_ total cash credit details
    = (foldl add_price total ((λ o, get (o_price o) zero_price) <$> orders_),
       foldl add_price cash
         ((λ o, get (o_price o) zero_price)
          <$> filter (λ o, get (payment_method o) "efectivo" ≠ "fiado") orders_),
       foldl add_price credit
         ((λ o, get (o_price o) zero_price)
          <$> filter (λ o, get (payment_method o) "efectivo" = "fiado") orders_),
       details
       ++ ((λ o, "- " +:+ get (customer_name o) "Desconocido" +:+ ": $"
                 +:+ fmt_price (get (o_price o) zero_price))
           <$> filter (λ o, get (payment_method o) "efectivo" = "fiado") orders_)).
Proof.
  induction orders_ as [|o orders_ IH]; intros total cash credit details; simpl.
  - by rewrite app_nil_r.
  - rewrite !filter_cons.
    destruct (String.eqb_spec (get (payment_method o) "efectivo") "fiado")
      as [Heq|Hne].
    + rewrite IH. rewrite (decide_False (P := _ ≠ _)) by (intros Hn; by apply Hn).
      rewrite !decide_True by done. simpl. by rewrite <- app_assoc.
    + rewrite IH. rewrite (decide_True (P := _ ≠ _)) by done.
      by rewrite !decide_False by done.
Qed.

(** X20. The daily report counts every order once in the gross sales and
    once in either the cash or the credit: in the credit, with a line that
    names the customer, when its payment method is [fiado], and in the cash
    otherwise, also when it has no payment method. Each figure is the sum
    of the prices of its orders, in their order, an order without a price
    counting for nothing. *)
Theorem daily_figures_partition (orders_ : list (order_data price)) :
  let price_of := λ o : order_data price, get (o_price o) zero_price in
  let fiado := λ o : order_data price, get (payment_method o) "efectivo" = "fiado" in
  daily_figures orders_ zero_price zero_price zero_price []
  = (foldl add_price zero_price (price_of <$> orders_),
     foldl add_price zero_price (price_of <$> filter (λ o, ¬ fiado o) orders_),
     foldl add_price zero_price (price_of <$> filter fiado orders_),
     (λ o, "- " +:+ get (customer_name o) "Desconocido" +:+ ": $"
           +:+ fmt_price (price_of o)) <$> filter fiado orders_).
Proof. simpl. by rewrite daily_figures_fold. Qed.

End ReportFacts.

(** ** Witnesses of the further properties *)

Lemma ledger_changes_quantities_only_witness :
  Forall ledger_op
    [CompleteOrder clock "o1";
     ProcessDirectSale clock basket_unpriced "Venta-7" None]
  ∧ same_but_quantity
      (inventory shop !! "A")
      (inventory (run [CompleteOrder clock "o1";
                       ProcessDirectSale clock basket_unpriced "Venta-7" None]
                      shop) !! "A").
Proof.
  assert (Forall ledger_op
            [CompleteOrder clock "o1";
             ProcessDirectSale clock basket_unpriced "Venta-7" None]) as Hops
    by (repeat constructor).
  split; [exact Hops|].
  exact (ledger_changes_quantities_only _ shop Hops "A").
Defined.

Lemma direct_sale_replaces_order_witness :
  let r := process_direct_sale clock basket "Venta-20240101" None shop in
  r = (r.1, (true, "Venta registrada. Total: $20.00", []))
  ∧ ∃ o, orders r.1 !! "Venta-20240101" = Some o
      ∧ status o = Some "completed"
      ∧ is_direct_sale o = Some true
      ∧ payment_method o = Some "efectivo"
      ∧ customer_name o = Some "Cliente General"
      ∧ timestamp o = Some (clock 2)
      ∧ completed_at o = Some (clock 3)
      ∧ (∀ k, k ≠ "Venta-20240101" → orders r.1 !! k = orders shop !! k)
      ∧ (get_order_count r.1).2
        = Ok (if decide (is_Some (orders shop !! "Venta-20240101"))
              then size (orders shop) else S (size (orders shop))).
Proof.
  intros r.
  assert (r = (r.1, (true, "Venta registrada. Total: $20.00", []))) as Hr
    by (vm_compute; reflexivity).
  split; [exact Hr|].
  exact (direct_sale_replaces_order clock basket "Venta-20240101" None shop r.1
           "Venta registrada. Total: $20.00" [] Hr).
Defined.

Lemma direct_sale_title_witness :
  let r := process_direct_sale clock basket "Venta-20240101" None shop in
  r = (r.1, (true, "Venta registrada. Total: $20.00", []))
  ∧ orders r.1 !! "Venta-20240101" ≫= title = Some "Venta Directa 20240101".
Proof.
  intros r.
  assert (r = (r.1, (true, "Venta registrada. Total: $20.00", []))) as Hr
    by (vm_compute; reflexivity).
  split; [exact Hr|].
  exact (proj1 (direct_sale_title clock basket "Venta-20240101" None shop r.1
                  "Venta registrada. Total: $20.00" [] Hr)
           "Venta" "20240101" eq_refl eq_refl).
Defined.

Lemma delete_inventory_item_frame_witness :
  let r := (delete_inventory_item 2 "B" shop).1 in
  delete_inventory_item 2 "B" shop = (r.1, r.2, Ok ())
  ∧ orders shop !! "o1" = Some order_1
  ∧ orders r.1 = orders shop
  ∧ (∀ k, k ≠ "B" →
       inventory r.1 !! k = inventory shop !! k
       ∧ history_of r.1 k = history_of shop k)
  ∧ ∃ msg, complete_order clock "o1" r.1 = (r.1, (false, msg, [])).
Proof.
  intros r.
  assert (delete_inventory_item 2 "B" shop = (r.1, r.2, Ok ())) as Hr
    by (vm_compute; reflexivity).
  assert (orders shop !! "o1" = Some order_1) as Ho by reflexivity.
  split; [exact Hr|]. split; [exact Ho|].
  destruct (delete_inventory_item_frame 2 "B" shop r.1 r.2 Hr)
    as (Hord & Hothers & Hfail).
  split; [exact Hord|]. split; [exact Hothers|].
  apply (Hfail clock "o1" order_1 (line "B" "Frijol" 4) Ho); [|reflexivity].
  apply (list_elem_of_lookup_2 _ 1%nat). reflexivity.
Defined.

Lemma delete_then_get_details_witness :
  let r := (delete_inventory_item 2 "B" shop).1 in
  delete_inventory_item 2 "B" shop = (r.1, r.2, Ok ())
  ∧ get_inventory_item_details "B" shop = (shop, [], Ok (Some ("B", item_B)))
  ∧ get_inventory_item_details "B" r.1 = (r.1, [], Ok None).
Proof.
  intros r.
  assert (delete_inventory_item 2 "B" shop = (r.1, r.2, Ok ())) as Hr
    by (vm_compute; reflexivity).
  split; [exact Hr|]. split; [reflexivity|].
  exact (delete_then_get_details 2 "B" shop r.1 r.2 Hr).
Defined.

Lemma get_all_inventory_items_sorted_witness :
  (∀ V (m : gmap string V), in_key_order V m ≡ₚ map_to_list m)
  ∧ ∃ items,
      get_all_inventory_items in_key_order lower_ascii shop = (shop, [], Ok items)
      ∧ (∀ k d, (k, d) ∈ items ↔ inventory shop !! k = Some d)
      ∧ NoDup items.*1
      ∧ Sorted (λ a b, String.leb (lower_ascii (get (name a.2) ""))
                                  (lower_ascii (get (name b.2) "")) = true) items.
Proof.
  assert (∀ V (m : gmap string V), in_key_order V m ≡ₚ map_to_list m) as Hstream
    by (intros V m; reflexivity).
  split; [exact Hstream|].
  exact (get_all_inventory_items_sorted in_key_order lower_ascii Hstream shop).
Defined.

Lemma get_orders_newest_first_witness :
  (∀ V (m : gmap string V), in_key_order V m ≡ₚ map_to_list m)
  ∧ ∃ l,
      get_orders in_key_order (Some "processing") shop = (shop, [], Ok l)
      ∧ (∀ k o, (k, o) ∈ l ↔
           orders shop !! k = Some o ∧ status o = Some "processing")
      ∧ NoDup l.*1
      ∧ Sorted (λ a b, timestamp_obj b.2 ≤ timestamp_obj a.2) l.
Proof.
  assert (∀ V (m : gmap string V), in_key_order V m ≡ₚ map_to_list m) as Hstream
    by (intros V m; reflexivity).
  split; [exact Hstream|].
  exact (get_orders_newest_first in_key_order Hstream (Some "processing") shop).
Defined.

Lemma get_orders_in_date_range_members_witness :
  let db := (complete_order clock "o1" shop).1 in
  (∀ V (m : gmap string V), in_key_order V m ≡ₚ map_to_list m)
  ∧ ∃ l,
      get_orders_in_date_range in_key_order 1700000000 1700086400 db
      = (db, [], Ok l)
      ∧ (∀ k o, (k, o) ∈ l ↔
           orders db !! k = Some o
           ∧ status o = Some "completed"
           ∧ ∃ t, completed_at o = Some t ∧ 1700000000 ≤ t ∧ t < 1700086400)
      ∧ NoDup l.*1
      ∧ (1700086400 ≤ 1700000000 → l = []).
Proof.
  intros db.
  assert (∀ V (m : gmap string V), in_key_order V m ≡ₚ map_to_list m) as Hstream
    by (intros V m; reflexivity).
  split; [exact Hstream|].
  exact (get_orders_in_date_range_members in_key_order Hstream
           1700000000 1700086400 db).
Defined.

Lemma direct_sale_is_reported_witness :
  let r := process_direct_sale clock basket "Venta-20240101" None shop in
  (∀ V (m : gmap string V), in_key_order V m ≡ₚ map_to_list m)
  ∧ r = (r.1, (true, "Venta registrada. Total: $20.00", []))
  ∧ ∃ l o,
      get_orders_in_date_range in_key_order 1700000000 1700086400 r.1
      = (r.1, [], Ok l)
      ∧ orders r.1 !! "Venta-20240101" = Some o
      ∧ (("Venta-20240101", o) ∈ l
         ↔ 1700000000 ≤ clock 3 ∧ clock 3 < 1700086400).
Proof.
  intros r.
  assert (∀ V (m : gmap string V), in_key_order V m ≡ₚ map_to_list m) as Hstream
    by (intros V m; reflexivity).
  assert (r = (r.1, (true, "Venta registrada. Total: $20.00", []))) as Hr
    by (vm_compute; reflexivity).
  split; [exact Hstream|]. split; [exact Hr|].
  exact (direct_sale_is_reported in_key_order Hstream clock basket
           "Venta-20240101" None shop r.1 "Venta registrada. Total: $20.00" []
           1700000000 1700086400 Hr).
Defined.

Lemma completed_order_is_reported_witness :
  let r := complete_order clock "o4" shop in
  (∀ V (m : gmap string V), in_key_order V m ≡ₚ map_to_list m)
  ∧ r = (r.1, (true, "Venta 'Pedido' finalizada correctamente.",
             ["'Arroz' ha alcanzado el umbral de stock mínimo (4/5)."]))
  ∧ ∃ l o o',
      get_orders_in_date_range in_key_order 1700000000 1700086400 r.1
      = (r.1, [], Ok l)
      ∧ orders shop !! "o4" = Some o
      ∧ orders r.1 !! "o4" = Some o'
      ∧ (("o4", o') ∈ l
         ↔ 1700000000 ≤ clock (length (lines_of o))
           ∧ clock (length (lines_of o)) < 1700086400).
Proof.
  intros r.
  assert (∀ V (m : gmap string V), in_key_order V m ≡ₚ map_to_list m) as Hstream
    by (intros V m; reflexivity).
  assert (r = (r.1, (true, "Venta 'Pedido' finalizada correctamente.",
                     ["'Arroz' ha alcanzado el umbral de stock mínimo (4/5)."])))
    as Hr by (vm_compute; reflexivity).
  split; [exact Hstream|]. split; [exact Hr|].
  exact (completed_order_is_reported in_key_order Hstream clock "o4" shop r.1
           "Venta 'Pedido' finalizada correctamente."
           ["'Arroz' ha alcanzado el umbral de stock mínimo (4/5)."]
           1700000000 1700086400 Hr).
Defined.

Lemma create_then_complete_witness :
  Forall (in_stock shop) basket_unpriced
  ∧ ∃ oid db1 db2 msg alerts,
      create_order basket_unpriced (order_of [] "processing") shop
      = (db1, [], Ok ())
      ∧ orders shop !! oid = None
      ∧ complete_order clock oid db1 = (db2, (true, msg, alerts))
      ∧ (∀ pre ing post,
           basket_unpriced = pre ++ ing :: post →
           li_id ing ∉ li_id <$> post →
           quantity_of db2 (li_id ing)
           = quantity_of shop (li_id ing) - li_quantity ing).
Proof.
  assert (Forall (in_stock shop) basket_unpriced) as Hall.
  { repeat constructor; [exists item_A|exists item_B];
      (split; [reflexivity|vm_compute; discriminate]). }
  split; [exact Hall|].
  exact (create_then_complete clock basket_unpriced (order_of [] "processing")
           shop Hall).
Defined.
